(** * AFL Fantasy Manager: price model, DVP ratings and stats consolidation

    A shallow embedding of the algorithmic core of the repository:

    - [afl_complete_processor.py]   ([AFLCompleteProcessor]: price change
      formula, disposals),
    - [correct_breakeven_formula.py] ([BreakEvenPricingProcessor]:
      break-even score, price change from break-even),
    - [attached_assets/dvp_analysis_1760666088962.py] ([DVPAnalyzer]:
      team and player defence-vs-position ratings),
    - [scrapers/create_master_stats.py] ([MasterStatsConsolidator]: merge
      passes with provenance tracking).

    Python numbers are modelled through one interface, [PyNum], with two
    instances: exact rationals ([Q]) and IEEE-754 binary64 ([spec_float]
    at precision 53), the arithmetic of Python's [float]. A theorem
    stated for any instance holds of both; a theorem that needs the laws
    of arithmetic is proved over exact rationals, and the concrete
    examples are replayed on binary64 bit for bit. *)

From Stdlib Require Import ZArith QArith Qround Qabs Qminmax Lia Lqa Bool.
From Stdlib Require Import SpecFloat Sorted.
From stdpp Require Import gmap strings list.

Set Default Proof Using "Type".

(** ** Python numbers *)

Declare Scope py_scope.
Delimit Scope py_scope with py.

(** The operations of Python's numeric tower that the modelled code uses. *)
Class PyNum (F : Type) := {
  of_Z : Z -> F;              (* an int used where a float is expected *)
  lit : Z -> nat -> F;        (* the literal m * 10^-d, e.g. 0.083 = lit 83 3 *)
  add : F -> F -> F;
  sub : F -> F -> F;
  mul : F -> F -> F;
  div : F -> F -> F;          (* true division, only called on a non-zero divisor *)
  ltb : F -> F -> bool;
  leb : F -> F -> bool;
  eqb : F -> F -> bool;
  absf : F -> F;              (* abs(x) *)
  round_nd : F -> nat -> F;   (* round(x, d): half-to-even at d decimals *)
  int_of : F -> Z             (* int(x): truncation towards zero *)
}.

Infix "+" := add : py_scope.
Infix "-" := sub : py_scope.
Infix "*" := mul : py_scope.
Infix "/" := div : py_scope.
Infix "<?" := ltb : py_scope.
Infix "<=?" := leb : py_scope.
Infix "=?" := eqb : py_scope.

(** Python's built-in [max(a, b)] and [min(a, b)]: the first argument is
    kept unless the second one is strictly greater (resp. smaller). *)
Definition py_max `{PyNum F} (a b : F) : F := if (a <? b)%py then b else a.
Definition py_min `{PyNum F} (a b : F) : F := if (b <? a)%py then b else a.

(** Python's [sum(l)]: left fold starting from the int [0]. *)
Definition py_sum `{PyNum F} (l : list F) : F := fold_left add l (of_Z 0).

(** [len(l)] as a number. *)
Definition py_len `{PyNum F} (l : list F) : F := of_Z (Z.of_nat (length l)).

(** *** Exact rationals *)

Definition pow10 (d : nat) : positive := Z.to_pos (10 ^ Z.of_nat d).

(** Round half to even, to an integer. *)
Definition Qround_half_even (q : Q) : Z :=
  let f := Qfloor q in
  match ((q - inject_Z f) ?= (1 # 2))%Q with
  | Lt => f
  | Gt => (f + 1)%Z
  | Eq => if Z.even f then f else (f + 1)%Z
  end.

Definition Qround_nd (q : Q) (d : nat) : Q :=
  (Qround_half_even (q * inject_Z (Zpos (pow10 d))) # pow10 d)%Q.

Definition Qtrunc (q : Q) : Z := if Qle_bool 0%Q q then Qfloor q else Qceiling q.

Definition Qltb (a b : Q) : bool := negb (Qle_bool b a).

(** The helpers respect the equality of rationals. *)
#[export] Instance Qround_half_even_proper : Proper (Qeq ==> eq) Qround_half_even.
Proof.
  intros x y Hxy. unfold Qround_half_even.
  rewrite (Qfloor_comp _ _ Hxy).
  assert (Hc : ((x - inject_Z (Qfloor y) ?= 1 # 2) = (y - inject_Z (Qfloor y) ?= 1 # 2))%Q)
    by (apply Qcompare_comp; [rewrite Hxy|]; reflexivity).
  rewrite Hc. reflexivity.
Qed.

#[export] Instance Qround_nd_proper : Proper (Qeq ==> eq ==> eq) Qround_nd.
Proof.
  intros x y Hxy d ? <-. unfold Qround_nd.
  assert (Hm : (x * inject_Z (Z.pos (pow10 d)) == y * inject_Z (Z.pos (pow10 d)))%Q)
    by (rewrite Hxy; reflexivity).
  rewrite (Qround_half_even_proper _ _ Hm). reflexivity.
Qed.

#[export] Instance Qltb_proper : Proper (Qeq ==> Qeq ==> eq) Qltb.
Proof. intros x x' Hx y y' Hy. unfold Qltb. rewrite Hx, Hy. reflexivity. Qed.

#[export] Instance PyNum_Q : PyNum Q := {|
  of_Z := inject_Z;
  lit m d := (m # pow10 d)%Q;
  add := Qplus;
  sub := Qminus;
  mul := Qmult;
  div := Qdiv;
  ltb := Qltb;
  leb := Qle_bool;
  eqb := Qeq_bool;
  absf := Qabs;
  round_nd := Qround_nd;
  int_of := Qtrunc
|}.

(** *** IEEE-754 binary64, the arithmetic of Python's [float] *)

Module B64.

Definition prec : Z := 53.
Definition emax : Z := 1024.

Definition of_Z (z : Z) : spec_float := binary_normalize prec emax z 0 false.

(** A decimal literal is the double nearest to [m / 10^d]; both operands
    of the division are exact, and the division is correctly rounded. *)
Definition lit (m : Z) (d : nat) : spec_float :=
  SFdiv prec emax (of_Z m) (of_Z (Zpos (pow10 d))).

(** The exact value of a finite double, as a rational. *)
Definition to_Q (x : spec_float) : Q :=
  match x with
  | S754_finite s m e =>
      let v := match e with
               | Zneg p => (Zpos m # (2 ^ p))%Q
               | _ => inject_Z (Zpos m * 2 ^ e)%Z
               end in
      if s then Qopp v else v
  | _ => 0%Q
  end.

(** [round(x, d)] rounds the exact binary value half-to-even at [d]
    decimals and returns the nearest double; zeros, infinities, NaN and
    doubles that are already integers are returned unchanged. *)
Definition round_nd (x : spec_float) (d : nat) : spec_float :=
  match x with
  | S754_finite s m (Zneg p) =>
      let k := Qround_half_even (to_Q x * inject_Z (Zpos (pow10 d)))%Q in
      if (k =? 0)%Z then S754_zero s
      else SFdiv prec emax (of_Z k) (of_Z (Zpos (pow10 d)))
  | _ => x
  end.

(** [int(x)] on a finite double (it raises on infinities and NaN, which
    the modelled code never passes to it). *)
Definition int_of (x : spec_float) : Z := Qtrunc (to_Q x).

End B64.

#[export] Instance PyNum_B64 : PyNum spec_float := {|
  of_Z := B64.of_Z;
  lit := B64.lit;
  add := SFadd B64.prec B64.emax;
  sub := SFsub B64.prec B64.emax;
  mul := SFmul B64.prec B64.emax;
  div := SFdiv B64.prec B64.emax;
  ltb := SFltb;
  leb := SFleb;
  eqb := SFeqb;
  absf := SFabs;
  round_nd := B64.round_nd;
  int_of := B64.int_of
|}.

(** ** PriceModel *)

Module PriceModel.

Section Generic.
Context `{PyNum F}.
Local Open Scope py_scope.

(** *** [AFLCompleteProcessor] (afl_complete_processor.py) *)

(** [self.magic_numbers]: round-specific calibration constants. *)
Definition magic_numbers : gmap Z Z :=
  list_to_map
    [ (0, 10250); (1, 9840); (2, 9783); (3, 9801); (4, 9719); (5, 9747);
      (6, 9869); (7, 9881); (8, 9928); (9, 9839); (10, 9888); (11, 9821);
      (12, 9822); (13, 9765); (14, 9749); (15, 9788); (16, 9875);
      (17, 9756); (18, 9748); (19, 9817); (20, 9755); (21, 9734);
      (22, 9740); (23, 9736) ]%Z.

(** [[s for s in scores if s > 0]] *)
Definition valid_scores (scores : list F) : list F :=
  List.filter (fun s => of_Z 0 <? s) scores.

(** The block "Ensure we have exactly 5 scores for the formula", run on
    a list of at least 3 valid scores: pad with the average computed
    once, or keep the first five. *)
Definition price_window (valid : list F) : list F :=
  if (length valid <? 5)%nat then
    let avg_score := py_sum valid / py_len valid in
    valid ++ List.repeat avg_score (5 - length valid)
  else if (5 <? length valid)%nat then firstn 5 valid
  else valid.

(** [valid_scores[i]], on a window that has the index. *)
Definition idx (l : list F) (i : nat) : F := nth i l (of_Z 0).

Definition weighted_sum (w : list F) : F :=
  (lit 83 3 * idx w 0) + (lit 67 3 * idx w 1) + (lit 50 3 * idx w 2)
  + (lit 33 3 * idx w 3) + (lit 17 3 * idx w 4).

Definition calculate_price_change
    (old_price : F) (scores : list F) (round_num : Z) : F :=
  let valid := valid_scores scores in
  if (length valid <? 3)%nat then old_price
  else
    let w := price_window valid in
    let magic_number := of_Z (default 9736%Z (magic_numbers !! round_num)) in
    let new_price := (lit 75 2 * old_price) + (magic_number * weighted_sum w) in
    round_nd new_price 0.

Definition calculate_disposals (kicks handballs : F) : F := kicks + handballs.

(** *** [BreakEvenPricingProcessor] (correct_breakeven_formula.py) *)

Definition round_weights : list F :=
  [lit 83 3; lit 67 3; lit 50 3; lit 33 3; lit 17 3].

(** [while len(scores) < 5: scores.append(sum(scores) / len(scores))];
    the loop runs at most five times. *)
Fixpoint pad_scores (fuel : nat) (scores : list F) : list F :=
  match fuel with
  | O => scores
  | S fuel' =>
      if (length scores <? 5)%nat
      then pad_scores fuel' (scores ++ [py_sum scores / py_len scores])
      else scores
  end.

(** The pairs that [zip(scores, self.round_weights)] yields. *)
Definition breakeven_pairs (recent_scores : list F) : list (F * F) :=
  combine (pad_scores 5 recent_scores) round_weights.

(** The scores that enter the weighted average. *)
Definition breakeven_window (recent_scores : list F) : list F :=
  map fst (breakeven_pairs recent_scores).

(** [calculate_breakeven_score]. The source also looks up the magic
    number and scales it by [current_price / 600000]; neither value
    reaches the result, which is the rounded weighted average. *)
Definition calculate_breakeven_score
    (current_price : F) (recent_scores : list F) (round_num : Z) : F :=
  if (length recent_scores <? 3)%nat then of_Z 0
  else
    let weighted_avg :=
      py_sum (map (fun sw => fst sw * snd sw) (breakeven_pairs recent_scores)) in
    round_nd weighted_avg 1.

Definition low_price_threshold : F := of_Z 300000.
Definition high_price_threshold : F := of_Z 1300000.
Definition price_per_point : F := of_Z 300.
Definition protection_threshold : F := of_Z 10.

Definition calculate_price_change_from_breakeven
    (current_price actual_score breakeven_score : F) : F :=
  let score_difference := actual_score - breakeven_score in
  let base_change := score_difference * price_per_point in
  let adjustment_factor :=
    if current_price <? low_price_threshold then
      (if of_Z 0 <? base_change then lit 14 1 else lit 7 1)
    else if high_price_threshold <? current_price then
      (if of_Z 0 <? base_change then lit 6 1 else lit 12 1)
    else lit 10 1 in
  let adjusted_change := base_change * adjustment_factor in
  let adjusted_change :=
    if (absf score_difference <=? protection_threshold)
       && (absf adjusted_change <? of_Z 15000)
    then of_Z 0 else adjusted_change in
  let new_price := current_price + adjusted_change in
  let new_price := py_max new_price (of_Z 200000) in
  round_nd new_price 0.

(** *** More of [AFLCompleteProcessor] *)

(** [calculate_price_per_point] *)
Definition calculate_price_per_point (price average_points : F) : F :=
  if average_points =? of_Z 0 then of_Z 0
  else round_nd (price / average_points) 2.

(** One entry of a player's ['Game Logs']: the round [game.get('RD', 0)]
    and the fantasy points [game.get('FP', 0)], which may be [None]. *)
Record game_log := {
  RD : F;
  FP : option F
}.

(** [sorted(game_logs, key=lambda x: x.get('RD', 0), reverse=True)]: a
    stable sort, most recent round first; games of the same round keep
    their order. *)
Fixpoint insert_by_round (x : game_log) (l : list game_log) : list game_log :=
  match l with
  | [] => [x]
  | y :: l' => if RD x <? RD y then y :: insert_by_round x l' else x :: y :: l'
  end.

Definition sort_by_round (game_logs : list game_log) : list game_log :=
  foldr insert_by_round [] game_logs.

(** [float(game.get('FP', 0) or 0)] *)
Definition score_of (game : game_log) : F :=
  match FP game with
  | Some fp => if fp =? of_Z 0 then of_Z 0 else fp
  | None => of_Z 0
  end.

(** The list [recent_scores] that [map_afl_to_server_format] builds: the
    scores of the five most recent games, padded with [0.0] to five. *)
Definition recent_scores_of (game_logs : list game_log) : list F :=
  let recent_scores := map score_of (firstn 5 (sort_by_round game_logs)) in
  recent_scores ++ List.repeat (of_Z 0) (5 - length recent_scores).

(** The ["price_change"] field of [map_afl_to_server_format]; the call
    leaves the round at its default, 23. *)
Definition server_price_change (current_price : F) (game_logs : list game_log) : F :=
  calculate_price_change current_price (recent_scores_of game_logs) 23 - current_price.

(** [calculate_total_points] *)
Definition calculate_total_points (game_logs : list game_log) : F :=
  fold_left (fun total game =>
               match FP game with
               | Some fp => total + fp
               | None => total
               end) game_logs (of_Z 0).

End Generic.

End PriceModel.

(** ** DVPRatingEngine ([DVPAnalyzer], dvp_analysis_1760666088962.py) *)

Module DVP.

Section Generic.
Context `{PyNum F}.
Local Open Scope py_scope.

(** One entry of [self.team_defensive_stats[team][position]]. *)
Record position_stats := {
  avg_points_allowed : F;
  sample_size : Z
}.

(** One entry of [self.team_dvp_ratings[team][position]]. *)
Record team_rating := {
  rating : Z;
  rating_avg_points_allowed : F;
  rank : Z
}.

Definition positions : list string :=
  ["Forward"; "Midfielder"; "Defender"; "Ruck"].

(** [self.team_defensive_stats]: a dict in insertion order; each team
    carries all four positions, as [calculate_team_defense_ratings]
    builds it. *)
Definition defensive_stats : Type := list (string * (string -> position_stats)).

(** The list [team_avgs] of one position: teams with at least 3 samples. *)
Definition team_avgs_of (stats : defensive_stats) (position : string)
    : list (string * F) :=
  omap (fun '(team, st) =>
          if (3 <=? sample_size (st position))%Z
          then Some (team, avg_points_allowed (st position))
          else None) stats.

(** [team_avgs.sort(key=lambda x: x[1])]: a stable sort on the average. *)
Fixpoint insert_by_avg (x : string * F) (l : list (string * F))
    : list (string * F) :=
  match l with
  | [] => [x]
  | y :: l' => if snd y <? snd x then y :: insert_by_avg x l' else x :: y :: l'
  end.

Definition sort_by_avg (l : list (string * F)) : list (string * F) :=
  foldr insert_by_avg [] l.

(** [max(1, min(10, int((i / (n - 1)) * 9) + 1))]; the division raises
    [ZeroDivisionError] when [n = 1]. *)
Definition dvp_rating (i n : Z) : option Z :=
  if (n - 1 =? 0)%Z then None
  else Some (Z.max 1 (Z.min 10 (int_of ((of_Z i / of_Z (n - 1)) * of_Z 9) + 1))).

(** The loop [for i, (team, avg_points) in enumerate(team_avgs)]. *)
Fixpoint rate_teams (position : string) (n i : Z) (team_avgs : list (string * F))
    (ratings : gmap (string * string) team_rating)
    : option (gmap (string * string) team_rating) :=
  match team_avgs with
  | [] => Some ratings
  | (team, avg_points) :: rest =>
      r ← dvp_rating i n;
      rate_teams position n (i + 1) rest
        (<[(team, position) :=
             {| rating := r; rating_avg_points_allowed := avg_points;
                rank := i + 1 |}]> ratings)
  end.

(** The body of the loop over positions. *)
Definition rate_position (stats : defensive_stats)
    (ratings : gmap (string * string) team_rating) (position : string)
    : option (gmap (string * string) team_rating) :=
  let team_avgs := team_avgs_of stats position in
  match team_avgs with
  | [] => Some ratings
  | _ =>
      let team_avgs := sort_by_avg team_avgs in
      rate_teams position (Z.of_nat (length team_avgs)) 0 team_avgs ratings
  end.

(** [create_dvp_team_ratings]; [None] is an uncaught exception. The
    nested dict [team -> position -> entry] is keyed by the pair. *)
Definition create_dvp_team_ratings (stats : defensive_stats)
    : option (gmap (string * string) team_rating) :=
  foldl (fun acc position => ratings ← acc; rate_position stats ratings position)
        (Some ∅) positions.

(** *** Player matchup ratings *)

(** numpy's [mean] and population [std] of a list of scores. *)
Variable np_mean np_std : list F -> F.

(** One element of [opponent_data['players']]; [game_scores] holds the
    values of the per-round keys that parse as numbers. *)
Record player_record := {
  PLAYER : string;
  AVG : F;
  GM : F;
  game_scores : list F
}.

(** The entry stored per player and opponent (its ['position'] label,
    a lookup in another table, is left out). *)
Record player_rating := {
  p_rating : F;
  p_avg_points : F;
  p_games_played : F;
  p_consistency : F
}.

Definition consistency_of (scores : list F) : F :=
  if (2 <=? length scores)%nat then
    let mean_score := np_mean scores in
    let std_score := np_std scores in
    let cv := if of_Z 0 <? mean_score then std_score / mean_score else of_Z 0 in
    py_max (of_Z 0) (of_Z 1 - (cv / lit 5 1))
  else of_Z 0.

Definition final_rating_of (avg_points games_played consistency_score : F) : F :=
  let base_rating := py_min (of_Z 10) (py_max (of_Z 1) (avg_points / of_Z 10)) in
  let sample_adjustment :=
    if of_Z 0 <? games_played
    then py_min (lit 12 1) (games_played / of_Z 5) else lit 5 1 in
  let consistency_adjustment := lit 8 1 + (consistency_score * lit 4 1) in
  let final_rating := (base_rating * sample_adjustment) * consistency_adjustment in
  py_max (of_Z 1) (py_min (of_Z 10) final_rating).

(** Truthiness of a number: [not x] holds for zero only. *)
Definition is_zero (x : F) : bool := x =? of_Z 0.

(** The body of the loop over players: [None] is [continue]. *)
Definition rate_player (player : player_record) : option player_rating :=
  if is_zero (AVG player) || String.eqb (PLAYER player) EmptyString then None
  else
    let consistency_score := consistency_of (game_scores player) in
    Some {| p_rating :=
              round_nd (final_rating_of (AVG player) (GM player) consistency_score) 1;
            p_avg_points := AVG player;
            p_games_played := GM player;
            p_consistency := round_nd consistency_score 2 |}.

(** [self.player_data]: team -> opponent -> players (absent when the
    key ['players'] is missing). *)
Definition matchup_data : Type :=
  list (string * list (string * option (list player_record))).

Definition rate_players_vs (opponent : string)
    (ratings : gmap (string * string) player_rating)
    (players : list player_record) : gmap (string * string) player_rating :=
  foldl (fun acc player =>
           match rate_player player with
           | Some r => <[(PLAYER player, opponent) := r]> acc
           | None => acc
           end) ratings players.

Definition calculate_player_dvp_ratings (player_data : matchup_data)
    : gmap (string * string) player_rating :=
  foldl (fun acc '(team, matchups) =>
           foldl (fun acc '(opponent, opponent_data) =>
                    match opponent_data with
                    | Some players => rate_players_vs opponent acc players
                    | None => acc
                    end) acc matchups)
        ∅ player_data.

(** *** Team defence aggregation *)

(** The sample that [calculate_team_defense_ratings] appends for one
    player record met under [opponent]: the opponent, the player's
    position group and the player's average. Records without an average,
    without games or with fewer than two games are skipped, and so are
    players without a position group. *)
Definition sample_of (player_to_position : gmap string string)
    (opponent : string) (player : player_record)
    : option (string * string * F) :=
  if is_zero (AVG player) || is_zero (GM player) || (GM player <? of_Z 2) then None
  else
    match player_to_position !! PLAYER player with
    | Some position =>
        if String.eqb position EmptyString then None
        else Some (opponent, position, AVG player)
    | None => None
    end.

(** All the samples, in the order in which the three nested loops meet
    them. *)
Definition samples (player_to_position : gmap string string)
    (player_data : matchup_data) : list (string * string * F) :=
  flat_map (fun team_matchups : string * list (string * option (list player_record)) =>
    flat_map (fun opponent_data : string * option (list player_record) =>
      match snd opponent_data with
      | Some players => omap (sample_of player_to_position (fst opponent_data)) players
      | None => []
      end) (snd team_matchups)) player_data.

(** The keys of a dict, in the order of their first insertion. *)
Definition insertion_order (keys : list string) : list string :=
  foldl (fun seen k => if bool_decide (k ∈ seen) then seen else seen ++ [k]) [] keys.

(** [team_position_stats[team][position]] once the loops are done. *)
Definition points_list (ss : list (string * string * F)) (team position : string)
    : list F :=
  omap (fun s : string * string * F =>
          if String.eqb (fst (fst s)) team && String.eqb (snd (fst s)) position
          then Some (snd s) else None) ss.

Definition stats_of (points : list F) : position_stats :=
  match points with
  | [] => {| avg_points_allowed := of_Z 0; sample_size := 0 |}
  | _ => {| avg_points_allowed := py_sum points / py_len points;
            sample_size := Z.of_nat (length points) |}
  end.

(** [calculate_team_defense_ratings]: one row per opponent that received
    a sample, in the order of their first sample. The source fills the
    four position groups of each row; other position names are never
    looked up. *)
Definition calculate_team_defense_ratings
    (player_to_position : gmap string string) (player_data : matchup_data)
    : defensive_stats :=
  let ss := samples player_to_position player_data in
  map (fun team => (team, fun position => stats_of (points_list ss team position)))
      (insertion_order (map (fun s : string * string * F => fst (fst s)) ss)).

End Generic.

End DVP.

(** ** StatsConsolidator ([MasterStatsConsolidator], create_master_stats.py) *)

Module Consolidator.

Section Generic.
Context `{PyNum F}.
Local Open Scope py_scope.

(** [normalize_name]: the join key. The merge passes only use it as a
    function from display names to keys. *)
Variable normalize_name : string -> string.

(** A field value of a profile. *)
Inductive value :=
| VNum (x : F)
| VStr (s : string).

(** One entry of [self.master_stats]: the dict of fields, with the
    provenance list ['data_sources'] kept apart. *)
Record profile := {
  fields : gmap string value;
  data_sources : list string
}.

(** A record of the fantasy metrics file, with its numbers parsed. *)
Record metrics_record := {
  m_name : string;
  m_own : F;
  m_con : F;
  m_ppm : F
}.

(** A row of a CSV source: the ['Player'] column and one number. *)
Record csv_row := {
  r_player : string;
  r_value : F
}.

(** The update of one profile by a metrics record:
    [profile.update({...})] and [data_sources.append('fantasy_metrics')]. *)
Definition update_metrics (p : profile) (player : metrics_record) : profile :=
  {| fields :=
       <["points_per_minute" := VNum (m_ppm player)]>
       (<["consistency_rating" := VNum (m_con player * of_Z 100)]>
       (<["ownership_percentage" := VNum (m_own player * of_Z 100)]>
          (fields p)));
     data_sources := data_sources p ++ ["fantasy_metrics"] |}.

(** The body of the loop of [merge_fantasy_metrics]. *)
Definition merge_metrics_record (master_stats : gmap string profile)
    (player : metrics_record) : gmap string profile :=
  let name := normalize_name (m_name player) in
  match master_stats !! name with
  | Some p => <[name := update_metrics p player]> master_stats
  | None => master_stats
  end.

Definition merge_fantasy_metrics (master_stats : gmap string profile)
    (metrics_data : list metrics_record) : gmap string profile :=
  foldl merge_metrics_record master_stats metrics_data.

(** [if src not in data_sources: data_sources.append(src)] *)
Definition append_once (src : string) (sources : list string) : list string :=
  if bool_decide (src ∈ sources) then sources else sources ++ [src].

(** The update of one profile by a CSV row: set one field, record the
    source once. *)
Definition update_csv (field src : string) (p : profile) (row : csv_row)
    : profile :=
  {| fields := <[field := VNum (r_value row)]> (fields p);
     data_sources := append_once src (data_sources p) |}.

(** The body of either loop of [merge_csv_data]. *)
Definition merge_csv_row (field src : string)
    (master_stats : gmap string profile) (row : csv_row)
    : gmap string profile :=
  let name := normalize_name (r_player row) in
  match master_stats !! name with
  | Some p => <[name := update_csv field src p row]> master_stats
  | None => master_stats
  end.

(** [merge_csv_data]: the CBA rows, then the kick-ins rows. *)
Definition merge_csv_data (master_stats : gmap string profile)
    (df_cba df_kickins : list csv_row) : gmap string profile :=
  let master_stats :=
    foldl (merge_csv_row "cba_percentage" "csv_cba") master_stats df_cba in
  foldl (merge_csv_row "kick_ins" "csv_kickins") master_stats df_kickins.

(** *** The value-index pass *)

(** A record of the fantasy value file, with its numbers parsed. *)
Record value_record := {
  v_name : string;
  v_actual_avg : F;
  v_value_index : F;
  v_value_rating : string
}.

Definition update_value (p : profile) (player : value_record) : profile :=
  {| fields :=
       <["value_rating" := VStr (v_value_rating player)]>
       (<["value_index" := VNum (v_value_index player)]>
       (<["actual_average" := VNum (v_actual_avg player)]>
          (fields p)));
     data_sources := data_sources p ++ ["fantasy_value"] |}.

Definition merge_value_record (master_stats : gmap string profile)
    (player : value_record) : gmap string profile :=
  let name := normalize_name (v_name player) in
  match master_stats !! name with
  | Some p => <[name := update_value p player]> master_stats
  | None => master_stats
  end.

Definition merge_fantasy_value_data (master_stats : gmap string profile)
    (value_data : list value_record) : gmap string profile :=
  foldl merge_value_record master_stats value_data.

(** *** The derived-field pass *)

(** [stats[key] > 0] raises on a missing key ([KeyError]) and on a string
    ([TypeError]); [None] stands for the exception. *)
Definition num_field (stats : profile) (key : string) : option F :=
  match fields stats !! key with
  | Some (VNum x) => Some x
  | _ => None
  end.

Definition gt_zero (stats : profile) (key : string) : option bool :=
  x ← num_field stats key; Some (of_Z 0 <? x).

(** [stats[key] == 0]: false on a string, [KeyError] on a missing key. *)
Definition eq_zero (stats : profile) (key : string) : option bool :=
  match fields stats !! key with
  | Some (VNum x) => Some (x =? of_Z 0)
  | Some (VStr _) => Some false
  | None => None
  end.

(** [stats.get(key, 0) > 0] *)
Definition get_gt_zero (stats : profile) (key : string) : option bool :=
  match fields stats !! key with
  | Some (VNum x) => Some (of_Z 0 <? x)
  | Some (VStr _) => None
  | None => Some false
  end.

(** [a and b]: [b] is evaluated only when [a] holds. *)
Definition py_and (a b : option bool) : option bool :=
  x ← a; if (x : bool) then b else Some false.

Definition set_value (key : string) (v : value) (stats : profile) : profile :=
  {| fields := <[key := v]> (fields stats); data_sources := data_sources stats |}.

(** [if cond: stats[key] = val] *)
Definition guarded_set (cond : profile -> option bool) (key : string)
    (val : profile -> option value) (stats : profile) : option profile :=
  c ← cond stats;
  if (c : bool) then v ← val stats; Some (set_value key v stats) else Some stats.

(** The body of the loop of [calculate_derived_stats]. *)
Definition derive_stats (stats : profile) : option profile :=
  stats ← guarded_set
    (fun st => py_and (gt_zero st "price") (gt_zero st "average_points"))
    "price_per_point"
    (fun st => price ← num_field st "price"; avg ← num_field st "average_points";
               Some (VNum (price / avg)))
    stats;
  stats ← guarded_set
    (fun st => py_and (gt_zero st "average_points") (gt_zero st "games_played"))
    "total_points"
    (fun st => avg ← num_field st "average_points"; games ← num_field st "games_played";
               Some (VNum (avg * games)))
    stats;
  stats ← guarded_set
    (fun st => py_and (eq_zero st "last_score") (get_gt_zero st "actual_average"))
    "last_score"
    (fun st => fields st !! "actual_average")
    stats;
  stats ← guarded_set
    (fun st => py_and (eq_zero st "last_3_average") (gt_zero st "average_points"))
    "last_3_average"
    (fun st => avg ← num_field st "average_points"; Some (VNum (avg * lit 95 2)))
    stats;
  guarded_set
    (fun st => py_and (eq_zero st "last_5_average") (gt_zero st "average_points"))
    "last_5_average"
    (fun st => avg ← num_field st "average_points"; Some (VNum (avg * lit 98 2)))
    stats.

(** [calculate_derived_stats]: every profile is rewritten in place; an
    exception on any profile aborts the run ([None]). *)
Definition calculate_derived_stats (master_stats : gmap string profile)
    : option (gmap string profile) :=
  if bool_decide (map_Forall (fun _ stats => is_Some (derive_stats stats)) master_stats)
  then Some (omap derive_stats master_stats)
  else None.

(** *** The completeness report *)

Definition critical_fields : list string :=
  [ "average_points"; "price"; "break_even"; "kicks"; "handballs"; "marks";
    "tackles"; "cba_percentage"; "points_per_minute"; "ownership_percentage";
    "value_rating" ].

(** [stats.get(field, 0) not in [0, '', None, 'Unknown']] *)
Definition is_populated (stats : profile) (field : string) : bool :=
  match fields stats !! field with
  | Some (VNum x) => negb (x =? of_Z 0)
  | Some (VStr s) => negb (String.eqb s EmptyString || String.eqb s "Unknown")
  | None => false
  end.

Definition populated_count (master_stats : gmap string profile) (field : string) : nat :=
  length (List.filter (fun stats => is_populated stats field)
                      (map_to_list master_stats).*2).

(** One entry of the report: ['populated'] and ['percentage']. *)
Definition completeness_of (master_stats : gmap string profile) (field : string)
    : Z * F :=
  let total_players := size master_stats in
  let populated := populated_count master_stats field in
  (Z.of_nat populated,
   if (0 <? total_players)%nat
   then round_nd ((of_Z (Z.of_nat populated) / of_Z (Z.of_nat total_players))
                  * of_Z 100) 1
   else of_Z 0).

Definition analyze_completeness (master_stats : gmap string profile)
    : list (string * (Z * F)) :=
  map (fun field => (field, completeness_of master_stats field)) critical_fields.

End Generic.

End Consolidator.

(** ** The specification's formulas, as the specification words them

    These follow the wording of the specification, over exact rationals,
    and are compared below with the functions taken from the code. *)

Module Spec.

Local Open Scope Q_scope.

Definition Qmean (l : list Q) : Q :=
  fold_right Qplus 0 l / inject_Z (Z.of_nat (length l)).

(** "clamp(1, 10, round((i / (n - 1)) * 9) + 1)"; "when n = 1, rating is
    defined as 1". *)
Definition team_rating_formula (i n : Z) : Z :=
  if (n =? 1)%Z then 1%Z
  else Z.max 1 (Z.min 10
         (Qround_half_even ((inject_Z i / inject_Z (n - 1)) * 9) + 1)).

(** "rating in [1,10], integer for team ratings" *)
Definition team_in_range {F : Type} (e : @DVP.team_rating F) : Prop :=
  (1 <= DVP.rating e <= 10)%Z.

(** "rating in [1,10], ... one-decimal for player ratings" *)
Definition player_in_range (e : @DVP.player_rating Q) : Prop :=
  1 <= DVP.p_rating e /\ DVP.p_rating e <= 10 /\
  exists k : Z, DVP.p_rating e = k # 10.

(** "sort eligible teams ascending by average points allowed" *)
Definition avg_le (x y : string * Q) : Prop := snd x <= snd y.

(** The rating the code assigns: truncation instead of rounding. *)
Definition team_rating_truncated (i n : Z) : Z :=
  Z.max 1 (Z.min 10 (9 * i / (n - 1) + 1)).

(** A valid score: "scores <= 0 (not played)" are the others. *)
Definition positive_score (s : Q) : bool := if Qlt_le_dec 0 s then true else false.

(** The PriceWindow: "scores <= 0 discarded, padded with the mean of the
    available scores when fewer than 5 remain, truncated to the first 5
    when more remain". *)
Definition price_window_formula (scores : list Q) : list Q :=
  let valid := List.filter positive_score scores in
  firstn 5 (valid ++ List.repeat (Qmean valid) (5 - length valid)).

(** "weights [0.083, 0.067, 0.050, 0.033, 0.017] applied positionally" *)
Definition weights : list Q := [83 # 1000; 67 # 1000; 50 # 1000; 33 # 1000; 17 # 1000].

Definition weighted_sum_formula (window : list Q) : Q :=
  fold_right Qplus 0 (zip_with Qmult weights window).

(** computeBreakEven: "the weighted sum of that window ..., rounded to
    1 decimal". *)
Definition break_even_formula (scores : list Q) : Q :=
  Qround_nd (weighted_sum_formula (price_window_formula scores)) 1.

(** A window in the sense of the PriceWindow invariant: five entries,
    each a valid (> 0) input score or the mean of the valid scores. *)
Definition is_price_window (scores window : list Q) : Prop :=
  let valid := List.filter positive_score scores in
  length window = 5%nat /\
  Forall (fun x => In x valid \/ x == Qmean valid) window.

(** priceChangeFromBreakEven, before any rounding: the tier factor, the
    protection rule and the floor. *)
Definition tier_factor (current_price base_change : Q) : Q :=
  if Qlt_le_dec current_price 300000 then
    (if Qlt_le_dec 0 base_change then 14 # 10
     else if Qlt_le_dec base_change 0 then 7 # 10 else 1)
  else if Qlt_le_dec 1300000 current_price then
    (if Qlt_le_dec 0 base_change then 6 # 10
     else if Qlt_le_dec base_change 0 then 12 # 10 else 1)
  else 1.

Definition adjusted_change_formula (current_price actual_score break_even : Q) : Q :=
  let score_difference := actual_score - break_even in
  let base_change := score_difference * 300 in
  let adjusted := base_change * tier_factor current_price base_change in
  if Qle_bool (Qabs score_difference) 10 && Qltb (Qabs adjusted) 15000
  then 0 else adjusted.

Definition price_from_break_even_formula
    (current_price actual_score break_even : Q) : Q :=
  Qmax (current_price + adjusted_change_formula current_price actual_score break_even)
       200000.

(** *** The formulas in the arithmetic of the program

    The definitions above read the specification over exact rationals.
    The program computes on binary64, where a sum or a difference is
    rounded at every step; the definitions below read the same
    sentences with every operation taken in the arithmetic of the
    program ([PyNum]: binary64, or exact rationals). *)

Section InProgramArithmetic.
Context `{PyNum F}.
Local Open Scope py_scope.







(** "if currentPrice < 300000 (low tier) ...; if currentPrice > 1300000
    (high tier) ...; otherwise ..." *)
Inductive price_tier := LowTier | StandardTier | HighTier.

Definition tier_of (current_price : F) : price_tier :=
  if current_price <? of_Z 300000 then LowTier
  else if of_Z 1300000 <? current_price then HighTier
  else StandardTier.

(** "rises x1.4, drops x0.7; rises x0.6, drops x1.2; otherwise x1.0". A
    change that is not a rise takes the factor of a drop. *)
Definition factor_of (tier : price_tier) (rise : bool) : F :=
  match tier, rise with
  | LowTier, true => lit 14 1
  | LowTier, false => lit 7 1
  | HighTier, true => lit 6 1
  | HighTier, false => lit 12 1
  | StandardTier, _ => lit 10 1
  end.

(** "if |scoreDifference| <= 10 and the resulting magnitude of the
    adjusted change is under $15,000, force the change to zero" *)
Definition adjusted_change_of (current_price actual_score break_even : F) : F :=
  let score_difference := actual_score - break_even in
  let base_change := score_difference * of_Z 300 in
  let adjusted :=
    base_change * factor_of (tier_of current_price) (of_Z 0 <? base_change) in
  if (absf score_difference <=? of_Z 10) && (absf adjusted <? of_Z 15000)
  then of_Z 0 else adjusted.

(** "newPrice = max(currentPrice + adjustedChange, 200000)" *)
Definition new_price_of (current_price actual_score break_even : F) : F :=
  py_max (current_price + adjusted_change_of current_price actual_score break_even)
         (of_Z 200000).

End InProgramArithmetic.

End Spec.

(** ** Concrete inputs used in the examples *)

Module Examples.
Import DVP.

Section Generic.
Context `{PyNum F}.

(** The scores of the worked example of the price formula. *)
Definition example_scores : list F :=
  [of_Z 85; of_Z 92; of_Z 78; of_Z 88; of_Z 95].

(** A team with three Forward samples at the given average and no
    sample for the other positions. *)
Definition forward_only (avg : Z) (position : string) : position_stats :=
  if String.eqb position "Forward"
  then {| avg_points_allowed := of_Z avg; sample_size := 3 |}
  else {| avg_points_allowed := of_Z 0; sample_size := 0 |}.

Definition five_teams : defensive_stats :=
  [ ("Adelaide", forward_only 60); ("Brisbane", forward_only 70);
    ("Carlton", forward_only 80); ("Essendon", forward_only 90);
    ("Geelong", forward_only 100) ].

Definition one_team : defensive_stats := [ ("Adelaide", forward_only 60) ].

Definition two_teams : defensive_stats :=
  [ ("Adelaide", forward_only 60); ("Brisbane", forward_only 70) ].

(** One player with two logged games against one opponent. *)
Definition one_matchup : matchup_data :=
  [ ("Melbourne",
     [ ("Brisbane",
        Some [ {| PLAYER := "Max Gawn"; AVG := of_Z 105; GM := of_Z 4;
                  game_scores := [of_Z 100; of_Z 110] |} ]) ]) ].

(** Three forwards and what they averaged against two clubs. *)
Definition forwards : gmap string string :=
  list_to_map [ ("Jeremy Cameron", "Forward"); ("Charlie Curnow", "Forward");
                ("Tom Hawkins", "Forward") ].

Definition forward_record (name : string) (avg games : Z) : player_record :=
  {| PLAYER := name; AVG := of_Z avg; GM := of_Z games; game_scores := [] |}.

Definition forwards_matchups : matchup_data :=
  [ ("Geelong",
     [ ("Brisbane",
        Some [ forward_record "Jeremy Cameron" 80 3;
               forward_record "Charlie Curnow" 70 2;
               forward_record "Tom Hawkins" 90 4 ]);
       ("Carlton",
        Some [ forward_record "Jeremy Cameron" 60 2;
               forward_record "Charlie Curnow" 65 3;
               forward_record "Tom Hawkins" 70 2 ]) ]) ].

(** The entry that the second of the two teams gets. *)
Definition brisbane_forward : team_rating :=
  {| rating := 10; rating_avg_points_allowed := of_Z 70; rank := 2 |}.

End Generic.

(** The entry of the matchup above, for a standard deviation of 5. *)
Definition gawn_vs_brisbane : @player_rating Q :=
  {| p_rating := (93 # 10)%Q; p_avg_points := 105%Q; p_games_played := 4%Q;
     p_consistency := (90 # 100)%Q |}.

(** ASCII lower-casing: what [normalize_name] does to a name made of
    letters and single spaces that contains none of its removed tokens. *)
Definition lower_ascii (c : Ascii.ascii) : Ascii.ascii :=
  let n := Ascii.nat_of_ascii c in
  if (65 <=? n)%nat && (n <=? 90)%nat then Ascii.ascii_of_nat (n + 32) else c.

Fixpoint lowercase (s : string) : string :=
  match s with
  | EmptyString => EmptyString
  | String c s' => String (lower_ascii c) (lowercase s')
  end.

(** A profile as [load_base_player_data] seeds it, reduced to the
    fields that the merge passes touch. *)
Definition seeded_profile `{PyNum F} : Consolidator.profile :=
  {| Consolidator.fields :=
       list_to_map
         [ ("ownership_percentage", Consolidator.VNum (of_Z 0));
           ("consistency_rating", Consolidator.VNum (of_Z 0));
           ("points_per_minute", Consolidator.VNum (of_Z 0));
           ("cba_percentage", Consolidator.VNum (of_Z 0));
           ("kick_ins", Consolidator.VNum (of_Z 0)) ];
     Consolidator.data_sources := ["player_data.json"] |}.

(** A profile as [load_base_player_data] seeds it for a player priced at
    640000 who averages 80 over 20 games, reduced to the fields that the
    derived-field pass reads or writes. *)
Definition priced_profile `{PyNum F} : Consolidator.profile :=
  {| Consolidator.fields :=
       list_to_map
         [ ("average_points", Consolidator.VNum (of_Z 80));
           ("price", Consolidator.VNum (of_Z 640000));
           ("games_played", Consolidator.VNum (of_Z 20));
           ("last_score", Consolidator.VNum (of_Z 0));
           ("last_3_average", Consolidator.VNum (of_Z 0));
           ("last_5_average", Consolidator.VNum (of_Z 0));
           ("total_points", Consolidator.VNum (of_Z 0)) ];
     Consolidator.data_sources := ["player_data.json"] |}.

Definition tom_green_metrics `{PyNum F} : Consolidator.metrics_record :=
  {| Consolidator.m_name := "Tom Green"; Consolidator.m_own := lit 35 2;
     Consolidator.m_con := lit 8 1; Consolidator.m_ppm := lit 11 1 |}.

End Examples.

(** * Properties *)

(** ** Facts about the rational instance *)

Section QFacts.
Local Open Scope Q_scope.

Lemma Qltb_lt (a b : Q) : Qltb a b = true <-> a < b.
Proof.
  unfold Qltb. rewrite negb_true_iff, <- not_true_iff_false, Qle_bool_iff.
  split; [apply Qnot_le_lt | apply Qlt_not_le].
Qed.

Lemma Qltb_ge (a b : Q) : Qltb a b = false <-> b <= a.
Proof.
  unfold Qltb. rewrite negb_false_iff. apply Qle_bool_iff.
Qed.

Lemma Qle_bool_gt (a b : Q) : Qle_bool a b = false <-> b < a.
Proof.
  rewrite <- not_true_iff_false, Qle_bool_iff.
  split; [apply Qnot_le_lt | apply Qlt_not_le].
Qed.

(** The rounded integer is the floor or its successor. *)
Lemma Qround_half_even_cases (x : Q) :
  Qround_half_even x = Qfloor x \/
  (Qround_half_even x = (Qfloor x + 1)%Z /\ 1 # 2 <= x - inject_Z (Qfloor x)).
Proof.
  unfold Qround_half_even.
  destruct (x - inject_Z (Qfloor x) ?= 1 # 2) eqn:Hc.
  - apply Qeq_alt in Hc. destruct (Z.even (Qfloor x)); [left | right]; auto.
    split; [reflexivity | rewrite Hc; apply Qle_refl].
  - left; reflexivity.
  - right. split; [reflexivity|]. apply Qgt_alt in Hc. apply Qlt_le_weak, Hc.
Qed.

Lemma Qround_half_even_bounds (x : Q) (lo hi : Z) :
  inject_Z lo <= x -> x <= inject_Z hi ->
  (lo <= Qround_half_even x <= hi)%Z.
Proof.
  intros Hlo Hhi.
  assert (Hf1 : (lo <= Qfloor x)%Z) by (apply Qfloor_resp_le in Hlo; rewrite Qfloor_Z in Hlo; exact Hlo).
  assert (Hf2 : (Qfloor x <= hi)%Z) by (apply Qfloor_resp_le in Hhi; rewrite Qfloor_Z in Hhi; exact Hhi).
  destruct (Qround_half_even_cases x) as [-> | [-> Hhalf]]; [lia|].
  split; [lia|].
  destruct (Z.eq_dec (Qfloor x) hi) as [E | NE]; [|lia].
  exfalso. rewrite E in Hhalf.
  assert (1 # 2 <= inject_Z hi - inject_Z hi) by (eapply Qle_trans; [exact Hhalf|]; lra).
  lra.
Qed.

End QFacts.

(** ** PriceModel *)

Module PriceModelProps.
Import PriceModel Examples.

(** *** The no-op of the price formula and the zero of the break-even *)

(** C6. For every old price, list of scores and round, when fewer than
    three of the supplied scores are greater than 0 the price formula
    returns the old price unchanged; the function is total, so this is a
    value, not a failure. The statement holds for any arithmetic. *)
Theorem calculate_price_change_too_few_scores
    `{PyNum F} (old_price : F) (scores : list F) (round_num : Z) :
  (length (List.filter (fun s => (of_Z 0 <? s)%py) scores) < 3)%nat ->
  calculate_price_change old_price scores round_num = old_price.
Proof.
  intros Hlen. unfold calculate_price_change, valid_scores.
  apply Nat.ltb_lt in Hlen. rewrite Hlen. reflexivity.
Qed.

Lemma calculate_price_change_too_few_scores_witness :
  calculate_price_change (of_Z 640000) [of_Z 90; of_Z 0; of_Z 75] 12
  = (of_Z 640000 : Q).
Proof.
  apply (calculate_price_change_too_few_scores (F := Q)).
  vm_compute. lia.
Defined.

(** C10. For every current price and round, when the list of recent
    scores has fewer than three entries the break-even computation
    returns 0. The statement holds for any arithmetic. *)
Theorem calculate_breakeven_score_too_few_scores
    `{PyNum F} (current_price : F) (recent_scores : list F) (round_num : Z) :
  (length recent_scores < 3)%nat ->
  calculate_breakeven_score current_price recent_scores round_num = of_Z 0.
Proof.
  intros Hlen. unfold calculate_breakeven_score.
  apply Nat.ltb_lt in Hlen. rewrite Hlen. reflexivity.
Qed.

Lemma calculate_breakeven_score_too_few_scores_witness :
  calculate_breakeven_score (of_Z 640000) [of_Z 90; of_Z 75] 23 = (of_Z 0 : Q).
Proof.
  apply (calculate_breakeven_score_too_few_scores (F := Q)).
  simpl. lia.
Defined.

(** The padding loop has run to its end after at most five rounds: the
    list it returns has five entries or more, whatever the input. *)
Lemma pad_scores_complete `{PyNum F} (fuel : nat) (scores : list F) :
  (5 <= fuel + length scores)%nat -> (5 <= length (pad_scores fuel scores))%nat.
Proof.
  revert scores. induction fuel as [|fuel IH]; intros scores Hf; cbn [pad_scores].
  - exact Hf.
  - destruct (length scores <? 5)%nat eqn:E.
    + apply IH. rewrite length_app. cbn [length]. lia.
    + apply Nat.ltb_ge in E. exact E.
Qed.

(** The example of the specification: a score 20 above the break-even at
    a price of 250000 gives 258400, on rationals and on doubles. *)
Example price_change_from_breakeven_low_tier :
  (calculate_price_change_from_breakeven (of_Z 250000) (of_Z 90) (of_Z 70) : Q)
    == 258400 /\
  calculate_price_change_from_breakeven (of_Z 250000) (of_Z 90) (of_Z 70)
    = (of_Z 258400 : spec_float).
Proof. split; vm_compute; reflexivity. Qed.

(** *** Disposals *)

(** C9. Disposals are kicks plus handballs in any arithmetic; on the
    doubles 12.5 and 8.3 the sum is exactly the double 20.8, and on
    rationals it is the rational 20.8. *)
Theorem calculate_disposals_sum :
  (forall `{PyNum F} (kicks handballs : F),
      calculate_disposals kicks handballs = (kicks + handballs)%py) /\
  calculate_disposals (lit 125 1) (lit 83 1) = (lit 208 1 : spec_float) /\
  (calculate_disposals (lit 125 1) (lit 83 1) : Q) == lit 208 1.
Proof.
  split; [reflexivity|]. split; [vm_compute; reflexivity | reflexivity].
Qed.

(** *** The worked example of the price formula *)

(** C4, as stated, fails: the code returns 810668, not 810782, on
    rationals and on doubles alike; the two values are 114 apart. *)
Lemma price_example_is_not_810782 :
  calculate_price_change (of_Z 800000) example_scores 23 <> (of_Z 810782 : spec_float) /\
  ~ (calculate_price_change (of_Z 800000) example_scores 23 == (of_Z 810782 : Q)) /\
  (of_Z 810782 - calculate_price_change (of_Z 800000) example_scores 23)%py == (114 : Q).
Proof.
  split; [vm_compute; discriminate|].
  split; [vm_compute; discriminate | vm_compute; reflexivity].
Qed.

(** C4, amended. On [800000], [[85, 92, 78, 88, 95]] and round 23 the
    weighted sum of the window is 21.638, the magic number is 9736, and
    the result is [round(0.75 * 800000 + 9736 * 21.638)], which is
    810668 (600000 + 210667.568, rounded); the double computed by the
    code is 810668.0 as well. *)
Theorem calculate_price_change_example :
  price_window (valid_scores example_scores) = (example_scores : list Q) /\
  weighted_sum (example_scores : list Q) == 21638 # 1000 /\
  magic_numbers !! 23%Z = Some 9736%Z /\
  (calculate_price_change (of_Z 800000) example_scores 23 : Q)
    = Qround_nd ((75 # 100) * 800000 + 9736 * (21638 # 1000)) 0 /\
  (75 # 100) * 800000 + 9736 * (21638 # 1000) == 810667568 # 1000 /\
  (calculate_price_change (of_Z 800000) example_scores 23 : Q) == 810668 /\
  calculate_price_change (of_Z 800000) example_scores 23 = (of_Z 810668 : spec_float).
Proof.
  repeat split; try (vm_compute; reflexivity).
Qed.

(** *** Price change from the break-even *)

Section FromBreakEven.
Local Open Scope Q_scope.

Lemma py_max_Qmax (u u' v : Q) : u == u' -> py_max u v == Qmax u' v.
Proof.
  intros Hu. unfold py_max. cbn [ltb PyNum_Q].
  destruct (Qltb u v) eqn:E.
  - apply Qltb_lt in E. symmetry. apply Q.max_r. rewrite <- Hu. apply Qlt_le_weak, E.
  - apply Qltb_ge in E. rewrite Q.max_l by (rewrite <- Hu; exact E). exact Hu.
Qed.

(** The factor the code picks agrees with the tier table on every
    change; on a zero change the factor does not matter. *)
Lemma adjusted_change_tier (current_price base_change : Q) :
  base_change *
    (if Qltb current_price 300000 then
       (if Qltb 0 base_change then 14 # 10 else 7 # 10)
     else if Qltb 1300000 current_price then
       (if Qltb 0 base_change then 6 # 10 else 12 # 10)
     else 10 # 10)
  == base_change * Spec.tier_factor current_price base_change.
Proof.
  unfold Spec.tier_factor.
  destruct (Qlt_le_dec current_price 300000) as [Hl | Hl].
  - apply Qltb_lt in Hl as ->.
    destruct (Qlt_le_dec 0 base_change) as [Hb | Hb].
    + apply Qltb_lt in Hb as ->. reflexivity.
    + pose proof Hb as Hb'. apply Qltb_ge in Hb' as ->.
      destruct (Qlt_le_dec base_change 0); [reflexivity|].
      assert (base_change == 0) as -> by (apply Qle_antisym; assumption). ring.
  - apply Qltb_ge in Hl as ->.
    destruct (Qlt_le_dec 1300000 current_price) as [Hh | Hh].
    + apply Qltb_lt in Hh as ->.
      destruct (Qlt_le_dec 0 base_change) as [Hb | Hb].
      * apply Qltb_lt in Hb as ->. reflexivity.
      * pose proof Hb as Hb'. apply Qltb_ge in Hb' as ->.
        destruct (Qlt_le_dec base_change 0); [reflexivity|].
        assert (base_change == 0) as -> by (apply Qle_antisym; assumption). ring.
    + apply Qltb_ge in Hh as ->. ring.
Qed.

(** C3, as stated, fails: the code rounds the floored price to a whole
    unit. At a price of 500000.5 with a score 20 above the break-even
    the formula of the claim gives 506000.5 and the code returns
    506000, on rationals and on doubles (where the formula of the claim,
    evaluated in binary64, is the double 506000.5). *)
Lemma price_change_from_breakeven_not_unrounded :
  Spec.price_from_break_even_formula (5000005 # 10) 90 70 == 5060005 # 10 /\
  calculate_price_change_from_breakeven (lit 5000005 1) (of_Z 90) (of_Z 70)
    == 506000 /\
  ~ (calculate_price_change_from_breakeven (lit 5000005 1) (of_Z 90) (of_Z 70)
     == Spec.price_from_break_even_formula (5000005 # 10) 90 70) /\
  calculate_price_change_from_breakeven (lit 5000005 1) (of_Z 90) (of_Z 70)
    = (of_Z 506000 : spec_float) /\
  (of_Z 506000 : spec_float) <> lit 5060005 1 /\
  Spec.new_price_of (lit 5000005 1) (of_Z 90) (of_Z 70) = (lit 5060005 1 : spec_float).
Proof.
  repeat split; try (vm_compute; reflexivity); vm_compute; discriminate.
Qed.

(** Over exact rationals the code returns the formula of the
    specification (tier factor, protection rule, floor), rounded to the
    nearest whole unit. Binary64 rounds the score difference and every
    product, so on doubles the two can part at the edge of the
    protection rule ([price_change_from_breakeven_binary64_difference]
    below); the statement that holds in both arithmetics is
    [calculate_price_change_from_breakeven_rounds]. *)
Lemma calculate_price_change_from_breakeven_formula
    (current_price actual_score breakeven_score : Q) :
  calculate_price_change_from_breakeven
    current_price actual_score breakeven_score
  = Qround_nd
      (Spec.price_from_break_even_formula
         current_price actual_score breakeven_score) 0.
Proof.
  unfold calculate_price_change_from_breakeven,
    Spec.price_from_break_even_formula, Spec.adjusted_change_formula,
    low_price_threshold, high_price_threshold, price_per_point,
    protection_threshold.
  cbn [add sub mul ltb leb absf round_nd of_Z lit PyNum_Q].
  apply Qround_nd_proper; [|reflexivity].
  apply py_max_Qmax.
  pose proof (adjusted_change_tier current_price
                ((actual_score - breakeven_score) * 300)) as Ht.
  change (inject_Z 300000) with (300000 : Q).
  change (inject_Z 1300000) with (1300000 : Q).
  change (inject_Z 300) with (300 : Q).
  change (inject_Z 0) with (0 : Q).
  change (inject_Z 10) with (10 : Q).
  change (inject_Z 15000) with (15000 : Q).
  change (14 # pow10 1) with (14 # 10). change (7 # pow10 1) with (7 # 10).
  change (6 # pow10 1) with (6 # 10). change (12 # pow10 1) with (12 # 10).
  change (10 # pow10 1) with (10 # 10).
  rewrite Ht.
  destruct (Qle_bool (Qabs (actual_score - breakeven_score)) 10
            && Qltb _ _); [reflexivity | rewrite Ht; reflexivity].
Qed.

End FromBreakEven.

(** *** Windows *)

Section Windows.
Local Open Scope Q_scope.

Lemma valid_scores_filter (scores : list Q) :
  valid_scores scores = List.filter Spec.positive_score scores.
Proof.
  unfold valid_scores. apply filter_ext. intros s. unfold Spec.positive_score.
  cbn [ltb of_Z PyNum_Q].
  destruct (Qlt_le_dec 0 s) as [Hs | Hs].
  - apply Qltb_lt, Hs.
  - apply Qltb_ge, Hs.
Qed.

Lemma filter_positive_all (scores : list Q) :
  Forall (fun s => 0 < s) scores -> List.filter Spec.positive_score scores = scores.
Proof.
  induction 1 as [|s l Hs _ IH]; [reflexivity|].
  cbn [List.filter]. unfold Spec.positive_score at 1.
  destruct (Qlt_le_dec 0 s) as [_ | Hn]; [now rewrite IH|].
  exfalso. apply (Qlt_not_le _ _ Hs Hn).
Qed.

(** [sum(l) / len(l)] is the mean. *)
Lemma fold_left_Qplus (l : list Q) (acc : Q) :
  fold_left Qplus l acc == acc + fold_right Qplus 0 l.
Proof.
  revert acc. induction l as [|x l IH]; intros acc; cbn [fold_left fold_right].
  - ring.
  - rewrite IH. ring.
Qed.

Lemma py_mean_Qmean (l : list Q) : py_sum l / py_len l == Spec.Qmean l.
Proof.
  unfold py_sum, py_len, Spec.Qmean. cbn [add div of_Z PyNum_Q].
  rewrite fold_left_Qplus. change (inject_Z 0) with 0.
  apply Qmult_comp; [ring | reflexivity].
Qed.

(** The window of the price formula satisfies the PriceWindow
    invariant. *)
Lemma price_window_is_price_window (scores : list Q) :
  (3 <= length (valid_scores scores))%nat ->
  Spec.is_price_window scores (price_window (valid_scores scores)).
Proof.
  intros _. unfold Spec.is_price_window. rewrite valid_scores_filter.
  set (valid := List.filter Spec.positive_score scores).
  unfold price_window.
  destruct (length valid <? 5)%nat eqn:E5.
  - apply Nat.ltb_lt in E5. split.
    + rewrite length_app, repeat_length. lia.
    + apply Forall_app. split.
      * apply List.Forall_forall. intros x Hx. left. exact Hx.
      * apply List.Forall_forall. intros x Hx. right.
        apply repeat_spec in Hx. subst x. apply py_mean_Qmean.
  - apply Nat.ltb_ge in E5.
    destruct (5 <? length valid)%nat eqn:E6.
    + split.
      * apply firstn_length_le. exact E5.
      * apply List.Forall_forall. intros x Hx. left.
        rewrite <- (firstn_skipn 5 valid). apply in_or_app. left. exact Hx.
    + apply Nat.ltb_ge in E6. split; [lia|].
      apply List.Forall_forall. intros x Hx. left. exact Hx.
Qed.

(** The loop that pads the break-even scores, unfolded by length. *)
Lemma breakeven_window_cases (l : list Q) :
  (3 <= length l)%nat ->
  (exists a b c, l = [a; b; c] /\
     breakeven_window l
     = [a; b; c; py_sum [a; b; c] / of_Z 3;
        py_sum [a; b; c; py_sum [a; b; c] / of_Z 3] / of_Z 4]%py) \/
  (exists a b c d, l = [a; b; c; d] /\
     breakeven_window l = [a; b; c; d; py_sum [a; b; c; d] / of_Z 4]%py) \/
  (exists a b c d e rest, l = a :: b :: c :: d :: e :: rest /\
     breakeven_window l = [a; b; c; d; e]).
Proof.
  intros Hl.
  destruct l as [|a [|b [|c [|d [|e rest]]]]]; cbn [length] in Hl; try lia.
  - left. exists a, b, c. split; reflexivity.
  - right. left. exists a, b, c, d. split; reflexivity.
  - right. right. exists a, b, c, d, e, rest. split; [reflexivity|].
    unfold breakeven_window, breakeven_pairs, round_weights.
    cbn [pad_scores length Nat.ltb Nat.leb combine map fst].
    rewrite combine_nil. reflexivity.
Qed.

(** With all scores positive and at least three of them, the
    break-even value is the specification's formula. *)
Lemma calculate_breakeven_score_positive
    (current_price : Q) (recent_scores : list Q) (round_num : Z) :
  (3 <= length recent_scores)%nat ->
  Forall (fun s => 0 < s) recent_scores ->
  calculate_breakeven_score current_price recent_scores round_num
  = Spec.break_even_formula recent_scores.
Proof.
  intros Hl Hpos.
  unfold Spec.break_even_formula, Spec.price_window_formula.
  rewrite (filter_positive_all _ Hpos).
  destruct recent_scores as [|a [|b [|c [|d [|e rest]]]]];
    cbn [length] in Hl; try lia;
    unfold calculate_breakeven_score, breakeven_pairs, round_weights,
      Spec.weighted_sum_formula, Spec.weights, Spec.Qmean, py_sum, py_len;
    cbn [length Nat.ltb Nat.leb pad_scores app combine map fst snd
         fold_left fold_right firstn repeat Nat.sub zip_with
         add mul div of_Z lit round_nd PyNum_Q Z.of_nat Pos.of_succ_nat Pos.succ];
    apply Qround_nd_proper; try reflexivity.
  all: unfold py_sum, py_len;
    cbn [fold_left length add div of_Z PyNum_Q];
    change (pow10 3) with 1000%positive;
    change (inject_Z 0) with (0 : Q);
    change (inject_Z (Z.of_nat 3)) with (3 : Q);
    change (inject_Z (Z.of_nat 4)) with (4 : Q).
  - field.
  - field.
  - rewrite combine_nil. cbn [map fold_left]. ring.
Qed.

Lemma breakeven_window_supplied (scores : list Q) :
  (3 <= length scores)%nat ->
  length (breakeven_window scores) = 5%nat /\
  Forall (fun x => In x scores \/ x == Spec.Qmean scores) (breakeven_window scores).
Proof.
  intros Hl.
  destruct (breakeven_window_cases scores Hl)
    as [(a & b & c & -> & ->) | [(a & b & c & d & -> & ->)
        | (a & b & c & d & e & rest & -> & ->)]];
    (split; [reflexivity|]).
  - repeat apply List.Forall_cons; try apply List.Forall_nil;
      try (left; cbn [In]; tauto); right;
      unfold py_sum, Spec.Qmean;
      cbn [fold_left fold_right length add div of_Z PyNum_Q];
      change (inject_Z 0) with (0 : Q);
      change (inject_Z (Z.of_nat 3)) with (3 : Q);
      change (inject_Z 3) with (3 : Q); change (inject_Z 4) with (4 : Q);
      field.
  - repeat apply List.Forall_cons; try apply List.Forall_nil;
      try (left; cbn [In]; tauto); right;
      unfold py_sum, Spec.Qmean;
      cbn [fold_left fold_right length add div of_Z PyNum_Q];
      change (inject_Z 0) with (0 : Q);
      change (inject_Z (Z.of_nat 4)) with (4 : Q);
      change (inject_Z 4) with (4 : Q);
      field.
  - repeat apply List.Forall_cons; try apply List.Forall_nil;
      left; cbn [In]; tauto.
Qed.

(** C7, as stated, fails for the break-even window: the scores are
    not filtered there, so on [[0, 50, 60]] the window starts with 0,
    which is neither a valid score nor the mean (55) of the valid
    ones. *)
Lemma breakeven_window_not_price_window :
  breakeven_window [0; 50; 60] = [0; 50; 60; (0 + 0 + 50 + 60) / 3;
                                  (0 + 0 + 50 + 60 + (0 + 0 + 50 + 60) / 3) / 4] /\
  ~ Spec.is_price_window [0; 50; 60] (breakeven_window [0; 50; 60]).
Proof.
  split; [reflexivity|].
  intros [_ Hall]. apply Forall_inv in Hall.
  destruct Hall as [Hin | Hmean].
  - vm_compute in Hin. destruct Hin as [E | [E | []]]; discriminate E.
  - vm_compute in Hmean. discriminate Hmean.
Qed.

(** C7, amended. Every window built by the price formula has exactly
    five entries, each a valid (> 0) input score or the mean of the
    valid scores. Every window built by the break-even computation has
    exactly five entries, each one of the supplied scores or the mean
    of the supplied scores; that computation does not discard scores,
    and its window is a PriceWindow when all supplied scores are
    greater than 0. *)
Theorem price_windows_invariant (scores : list Q) :
  ((3 <= length (valid_scores scores))%nat ->
   Spec.is_price_window scores (price_window (valid_scores scores))) /\
  ((3 <= length scores)%nat ->
   length (breakeven_window scores) = 5%nat /\
   Forall (fun x => In x scores \/ x == Spec.Qmean scores)
          (breakeven_window scores)) /\
  ((3 <= length scores)%nat -> Forall (fun s => 0 < s) scores ->
   Spec.is_price_window scores (breakeven_window scores)).
Proof.
  split; [apply price_window_is_price_window|].
  split; [apply breakeven_window_supplied|].
  intros Hl Hpos. unfold Spec.is_price_window.
  rewrite (filter_positive_all _ Hpos).
  apply breakeven_window_supplied, Hl.
Qed.

Lemma price_windows_invariant_witness :
  Spec.is_price_window [85; 0; 92; 78] (price_window (valid_scores [85; 0; 92; 78])) /\
  length (breakeven_window [85; 92; 78]) = 5%nat /\
  Spec.is_price_window [85; 92; 78] (breakeven_window [85; 92; 78]).
Proof.
  destruct (price_windows_invariant [85; 0; 92; 78]) as (H1 & _ & _).
  destruct (price_windows_invariant [85; 92; 78]) as (_ & H2 & H3).
  split; [|split].
  - apply H1. vm_compute. lia.
  - apply H2. cbn [length]. lia.
  - apply H3.
    + cbn [length]. lia.
    + repeat constructor.
Defined.


(** Over exact rationals, for at least three recent scores that are
    all greater than 0, the break-even computation builds the window of
    the price formula and returns its weighted sum rounded to one
    decimal. Binary64 rounds every product and partial sum, so on
    doubles the last decimal can differ
    ([calculate_breakeven_score_binary64_last_decimal] below); the
    statement that holds in both arithmetics is
    [calculate_breakeven_score_in_program_arithmetic]. *)
Lemma calculate_breakeven_score_formula
    (current_price : Q) (recent_scores : list Q) (round_num : Z) :
  (3 <= length recent_scores)%nat ->
  Forall (fun s => 0 < s) recent_scores ->
  Forall2 Qeq (breakeven_window recent_scores)
              (price_window (valid_scores recent_scores)) /\
  Forall2 Qeq (breakeven_window recent_scores)
              (Spec.price_window_formula recent_scores) /\
  calculate_breakeven_score current_price recent_scores round_num
  = Qround_nd (Spec.weighted_sum_formula
                 (Spec.price_window_formula recent_scores)) 1.
Proof.
  intros Hl Hpos.
  split; [|split; [|apply calculate_breakeven_score_positive; assumption]].
  - rewrite valid_scores_filter, (filter_positive_all _ Hpos).
    destruct (breakeven_window_cases recent_scores Hl)
      as [(a & b & c & -> & ->) | [(a & b & c & d & -> & ->)
          | (a & b & c & d & e & rest & -> & ->)]];
      unfold price_window; cbn [length Nat.ltb Nat.leb Nat.sub repeat app firstn];
      try (destruct rest; cbn [length firstn]);
      repeat apply List.Forall2_cons; try apply List.Forall2_nil; try reflexivity.
    unfold py_sum, py_len;
      cbn [fold_left length add div of_Z PyNum_Q];
      change (inject_Z 0) with (0 : Q);
      change (inject_Z (Z.of_nat 3)) with (3 : Q);
      change (inject_Z 3) with (3 : Q); change (inject_Z 4) with (4 : Q);
      field.
  - unfold Spec.price_window_formula. rewrite (filter_positive_all _ Hpos).
    destruct (breakeven_window_cases recent_scores Hl)
      as [(a & b & c & -> & ->) | [(a & b & c & d & -> & ->)
          | (a & b & c & d & e & rest & -> & ->)]];
      cbn [length Nat.sub repeat app firstn];
      repeat apply List.Forall2_cons; try apply List.Forall2_nil; try reflexivity.
    all: unfold py_sum, Spec.Qmean;
      cbn [fold_left fold_right length add div of_Z PyNum_Q];
      change (inject_Z 0) with (0 : Q);
      change (inject_Z (Z.of_nat 3)) with (3 : Q);
      change (inject_Z (Z.of_nat 4)) with (4 : Q);
      change (inject_Z 3) with (3 : Q); change (inject_Z 4) with (4 : Q);
      field.
Qed.

End Windows.

(** *** The break-even formulas in the arithmetic of the program *)

Section InProgramArithmetic.
Context `{PyNum F}.


(** C3, amended. In the arithmetic of the program (binary64, and
    equally over exact rationals), for every current price, actual
    score and break-even, the code computes the base change
    [(actual - breakEven) * 300], multiplies it by the factor of the
    tier (1.4 for rises and 0.7 for drops below 300000, 0.6 for rises
    and 1.2 for drops above 1300000, 1.0 otherwise), forces the
    adjusted change to zero whenever the score difference is within 10
    and the adjusted change is under 15000 in magnitude (a
    deterministic function: nothing is sampled), floors the new price
    at 200000, and returns it rounded to the nearest whole unit. *)
Theorem calculate_price_change_from_breakeven_rounds
    (current_price actual_score breakeven_score : F) :
  calculate_price_change_from_breakeven current_price actual_score breakeven_score
  = round_nd (Spec.new_price_of current_price actual_score breakeven_score) 0.
Proof.
  unfold calculate_price_change_from_breakeven, Spec.new_price_of,
    Spec.adjusted_change_of, Spec.tier_of, low_price_threshold,
    high_price_threshold, price_per_point, protection_threshold.
  destruct (current_price <? of_Z 300000)%py;
    [|destruct (of_Z 1300000 <? current_price)%py];
    cbn [Spec.factor_of];
    destruct (of_Z 0 <? (actual_score - breakeven_score) * of_Z 300)%py;
    reflexivity.
Qed.


End InProgramArithmetic.


Lemma calculate_breakeven_score_binary64_last_decimal :
  calculate_breakeven_score (of_Z 600000) (List.repeat (of_Z 61) 5) 23
    = (lit 153 1 : spec_float) /\
  (calculate_breakeven_score 600000 (List.repeat 61 5) 23 == 152 # 10)%Q.
Proof. split; vm_compute; reflexivity. Qed.

(** The difference of the doubles 11.9 and 1.9 is the double 10.0, so the
    code protects the price; the exact difference of the two doubles is
    above 10, and over exact rationals the same inputs are not
    protected. *)
Lemma price_change_from_breakeven_binary64_difference :
  calculate_price_change_from_breakeven (of_Z 455000) (lit 119 1) (lit 19 1)
    = (of_Z 455000 : spec_float) /\
  (calculate_price_change_from_breakeven
     455000 (B64.to_Q (lit 119 1)) (B64.to_Q (lit 19 1)) == 458000)%Q.
Proof. split; vm_compute; reflexivity. Qed.

End PriceModelProps.

(** ** DVPRatingEngine *)

Module DVPProps.
Import DVP.

(** *** The rating of one sorted index *)

Section Rating.
Local Open Scope Q_scope.

Lemma Qfloor_scaled_ratio (i m : Z) :
  (0 < m)%Z ->
  Qfloor ((inject_Z i / inject_Z m) * inject_Z 9) = (9 * i / m)%Z.
Proof.
  intros Hm.
  assert (E : (inject_Z i / inject_Z m) * inject_Z 9 == (9 * i) # (Z.to_pos m)).
  { unfold Qeq, Qdiv, Qmult, Qinv, inject_Z. destruct m as [|p|p]; try lia.
    cbn. lia. }
  rewrite (Qfloor_comp _ _ E). unfold Qfloor.
  rewrite Z2Pos.id by exact Hm. reflexivity.
Qed.

Lemma scaled_ratio_nonneg (i m : Z) :
  (0 <= i)%Z -> (0 < m)%Z -> 0 <= (inject_Z i / inject_Z m) * inject_Z 9.
Proof.
  intros Hi Hm. apply Qmult_le_0_compat; [|discriminate].
  apply Qle_shift_div_l.
  - change 0 with (inject_Z 0). rewrite <- Zlt_Qlt. exact Hm.
  - rewrite Qmult_0_l. change 0 with (inject_Z 0). rewrite <- Zle_Qle. exact Hi.
Qed.

(** On rationals, the rating of index [i] among [n >= 2] teams is the
    truncated formula. *)
Lemma dvp_rating_truncated (i n : Z) :
  (0 <= i)%Z -> (2 <= n)%Z ->
  dvp_rating (F := Q) i n = Some (Spec.team_rating_truncated i n).
Proof.
  intros Hi Hn. unfold dvp_rating, Spec.team_rating_truncated.
  destruct (n - 1 =? 0)%Z eqn:E; [apply Z.eqb_eq in E; lia|].
  cbn [int_of mul div of_Z PyNum_Q]. unfold Qtrunc.
  assert (Hnn := scaled_ratio_nonneg i (n - 1) Hi ltac:(lia)).
  apply Qle_bool_iff in Hnn. rewrite Hnn.
  rewrite Qfloor_scaled_ratio by lia. reflexivity.
Qed.

(** With a single team the division raises. *)
Lemma dvp_rating_single `{PyNum F} (i : Z) : dvp_rating (F := F) i 1 = None.
Proof. reflexivity. Qed.

(** Every rating lies in 1..10, in any arithmetic. *)
Lemma dvp_rating_range `{PyNum F} (i n r : Z) :
  dvp_rating (F := F) i n = Some r -> (1 <= r <= 10)%Z.
Proof.
  unfold dvp_rating. destruct (n - 1 =? 0)%Z; [discriminate|].
  intros [= <-]. lia.
Qed.

End Rating.

(** *** Sorting by average *)

Section Sorting.
Context `{PyNum F}.

Lemma insert_by_avg_perm (x : string * F) (l : list (string * F)) :
  insert_by_avg x l ≡ₚ x :: l.
Proof.
  induction l as [|y l IH]; cbn [insert_by_avg]; [reflexivity|].
  destruct (snd y <? snd x)%py; [|reflexivity].
  rewrite IH. apply Permutation_swap.
Qed.

Lemma sort_by_avg_perm (l : list (string * F)) : sort_by_avg l ≡ₚ l.
Proof.
  induction l as [|x l IH]; cbn [sort_by_avg foldr]; [reflexivity|].
  fold (sort_by_avg l). rewrite insert_by_avg_perm, IH. reflexivity.
Qed.

Lemma sort_by_avg_length (l : list (string * F)) :
  length (sort_by_avg l) = length l.
Proof. apply Permutation_length, sort_by_avg_perm. Qed.

(** The eligible teams of a position are teams of the table, in its
    order. *)
Lemma team_avgs_of_sublist
    (stats : list (string * (string -> @position_stats F))) (position : string) :
  (team_avgs_of stats position).*1 `sublist_of` stats.*1.
Proof.
  induction stats as [|[team st] stats IH]; [constructor|].
  unfold team_avgs_of. cbn [omap list_omap].
  destruct (3 <=? sample_size (st position))%Z; cbn.
  - apply sublist_skip, IH.
  - apply sublist_cons, IH.
Qed.

Lemma sorted_teams_NoDup
    (stats : list (string * (string -> @position_stats F))) (position : string) :
  NoDup stats.*1 -> NoDup (sort_by_avg (team_avgs_of stats position)).*1.
Proof.
  intros Hnd. rewrite sort_by_avg_perm.
  exact (sublist_NoDup _ _ Hnd (team_avgs_of_sublist stats position)).
Qed.

End Sorting.

Section SortingQ.
Local Open Scope Q_scope.

Lemma insert_by_avg_HdRel (a x : string * Q) (l : list (string * Q)) :
  Spec.avg_le a x -> HdRel Spec.avg_le a l -> HdRel Spec.avg_le a (insert_by_avg x l).
Proof.
  intros Hax Hal. destruct l as [|y l]; cbn [insert_by_avg].
  - constructor. exact Hax.
  - destruct (snd y <? snd x)%py; constructor.
    + inversion Hal; assumption.
    + exact Hax.
Qed.

Lemma insert_by_avg_sorted (x : string * Q) (l : list (string * Q)) :
  Sorted Spec.avg_le l -> Sorted Spec.avg_le (insert_by_avg x l).
Proof.
  induction 1 as [|y l Hs IH Hhd]; cbn [insert_by_avg].
  - repeat constructor.
  - destruct (snd y <? snd x)%py eqn:E.
    + constructor; [exact IH|].
      apply insert_by_avg_HdRel; [|exact Hhd].
      apply Qltb_lt in E. apply Qlt_le_weak, E.
    + constructor; [constructor; assumption|].
      constructor. apply Qltb_ge in E. exact E.
Qed.

(** The sort puts the teams in ascending order of points allowed. *)
Lemma sort_by_avg_sorted (l : list (string * Q)) : Sorted Spec.avg_le (sort_by_avg l).
Proof.
  induction l as [|x l IH]; cbn [sort_by_avg foldr]; [constructor|].
  apply insert_by_avg_sorted, IH.
Qed.

End SortingQ.

(** *** Team ratings *)

Section TeamRatings.

(** The loop over the sorted teams stores, for the team at index [j],
    the truncated rating of index [i + j], and leaves every other key
    alone. *)
Lemma rate_teams_lookup (position : string) (n : Z) :
  (2 <= n)%Z ->
  forall (L : list (string * Q)) (i : Z)
         (acc : gmap (string * string) (@team_rating Q)),
    (0 <= i)%Z -> NoDup L.*1 ->
    exists R,
      rate_teams position n i L acc = Some R /\
      (forall (j : nat) team avg,
          L !! j = Some (team, avg) ->
          R !! (team, position)
          = Some {| rating := Spec.team_rating_truncated (i + Z.of_nat j) n;
                    rating_avg_points_allowed := avg;
                    rank := i + Z.of_nat j + 1 |}) /\
      (forall team position',
          position' <> position \/ team ∉ L.*1 ->
          R !! (team, position') = acc !! (team, position')).
Proof.
  intros Hn L. induction L as [|[team avg] rest IH]; intros i acc Hi Hnd.
  - exists acc. split; [reflexivity|]. split; [|reflexivity].
    intros j t a Hj. rewrite lookup_nil in Hj. discriminate Hj.
  - cbn [rate_teams]. rewrite (dvp_rating_truncated i n Hi Hn).
    cbn [mbind option_bind].
    cbn [fmap list_fmap fst] in Hnd. apply NoDup_cons in Hnd as [Hnotin Hnd].
    destruct (IH (i + 1)%Z
                (<[(team, position) :=
                     {| rating := Spec.team_rating_truncated i n;
                        rating_avg_points_allowed := avg;
                        rank := i + 1 |}]> acc)
                ltac:(lia) Hnd) as (R & HR & Hlook & Hframe).
    exists R. split; [exact HR|]. split.
    + intros [|j] t a Hj.
      * cbn in Hj. injection Hj as <- <-.
        rewrite Hframe by (right; exact Hnotin).
        rewrite lookup_insert_eq. rewrite Z.add_0_r. reflexivity.
      * cbn in Hj. rewrite (Hlook j t a Hj).
        replace (i + 1 + Z.of_nat j)%Z with (i + Z.of_nat (S j))%Z by lia.
        reflexivity.
    + intros t p' Hkey. rewrite Hframe.
      * apply lookup_insert_ne. intros [= -> ->].
        destruct Hkey as [Hp | Ht]; [congruence|].
        apply Ht. cbn. apply list_elem_of_here.
      * destruct Hkey as [Hp | Ht]; [left; exact Hp|].
        right. intros Hin. apply Ht. cbn. apply list_elem_of_further, Hin.
Qed.

(** One pass of the loop over positions, when it does not raise. *)
Lemma rate_position_lookup
    (stats : list (string * (string -> @position_stats Q)))
    (acc R : gmap (string * string) (@team_rating Q)) (position : string) :
  NoDup stats.*1 ->
  rate_position stats acc position = Some R ->
  (forall (j : nat) team avg,
      sort_by_avg (team_avgs_of stats position) !! j = Some (team, avg) ->
      R !! (team, position)
      = Some {| rating :=
                  Spec.team_rating_truncated (Z.of_nat j)
                    (Z.of_nat (length (sort_by_avg (team_avgs_of stats position))));
                rating_avg_points_allowed := avg;
                rank := Z.of_nat j + 1 |}) /\
  (forall team position',
      position' <> position -> R !! (team, position') = acc !! (team, position')).
Proof.
  intros Hnd. unfold rate_position.
  pose proof (sorted_teams_NoDup stats position Hnd) as HndL.
  destruct (team_avgs_of stats position) as [|x l] eqn:El.
  - intros [= <-]. split; [|reflexivity].
    intros j t a Hj. cbn in Hj. rewrite lookup_nil in Hj. discriminate Hj.
  - set (L := sort_by_avg (x :: l)) in *.
    assert (HlenL : length L = S (length l))
      by (unfold L; rewrite sort_by_avg_length; reflexivity).
    destruct (Z.eq_dec (Z.of_nat (length L)) 1%Z) as [E1 | NE1].
    + destruct L as [|[t a] [|y L']]; cbn [length] in *; try lia.
      cbn [rate_teams]. rewrite dvp_rating_single. discriminate.
    + intros HR.
      destruct (rate_teams_lookup position (Z.of_nat (length L)) ltac:(lia)
                  L 0%Z acc ltac:(lia) HndL) as (R' & HR' & Hlook & Hframe).
      rewrite HR in HR'. injection HR' as <-.
      split.
      * intros j t a Hj. rewrite (Hlook j t a Hj). rewrite !Z.add_0_l. reflexivity.
      * intros t p' Hp. apply Hframe. left. exact Hp.
Qed.

End TeamRatings.

Section TeamRatingClaims.
Import Examples.

(** C1, as stated, fails. With five eligible teams the team at sorted
    index 3 gets [int(0.75 * 9) + 1 = 7] where the formula of the
    claim gives [round(6.75) + 1 = 8], on rationals and on doubles;
    with a single eligible team the run raises instead of rating the
    team 1. *)
Lemma create_dvp_team_ratings_not_rounded :
  sort_by_avg (team_avgs_of (F := Q) five_teams "Forward") !! 3%nat
    = Some ("Essendon", 90%Q) /\
  (create_dvp_team_ratings (F := Q) five_teams
     ≫= fun R => rating <$> R !! ("Essendon", "Forward")) = Some 7%Z /\
  (create_dvp_team_ratings (F := spec_float) five_teams
     ≫= fun R => rating <$> R !! ("Essendon", "Forward")) = Some 7%Z /\
  Spec.team_rating_formula 3 5 = 8%Z /\
  create_dvp_team_ratings (F := Q) one_team = None /\
  create_dvp_team_ratings (F := spec_float) one_team = None /\
  Spec.team_rating_formula 0 1 = 1%Z.
Proof.
  repeat split; vm_compute; reflexivity.
Qed.

(** C1, amended. Whenever the run completes, for every position
    group, with [n] eligible teams (sample size at least 3) sorted
    ascending by average points allowed, the team at sorted index [i]
    gets the rating [clamp(1, 10, trunc((i / (n - 1)) * 9) + 1)]
    (truncation towards zero, not rounding), its average and the rank
    [i + 1]. *)
Theorem create_dvp_team_ratings_truncated
    (stats : list (string * (string -> @position_stats Q)))
    (R : gmap (string * string) (@team_rating Q)) :
  NoDup stats.*1 ->
  create_dvp_team_ratings stats = Some R ->
  forall position, position ∈ positions ->
    sort_by_avg (team_avgs_of stats position) ≡ₚ team_avgs_of stats position /\
    Sorted Spec.avg_le (sort_by_avg (team_avgs_of stats position)) /\
    forall (i : nat) team avg,
      sort_by_avg (team_avgs_of stats position) !! i = Some (team, avg) ->
      R !! (team, position)
      = Some {| rating :=
                  Spec.team_rating_truncated (Z.of_nat i)
                    (Z.of_nat (length (team_avgs_of stats position)));
                rating_avg_points_allowed := avg;
                rank := Z.of_nat i + 1 |}.
Proof.
  intros Hnd Hrun position Hpos.
  split; [apply sort_by_avg_perm|]. split; [apply sort_by_avg_sorted|].
  rewrite <- (sort_by_avg_length (team_avgs_of stats position)).
  unfold create_dvp_team_ratings, positions in Hrun. cbn [foldl] in Hrun.
  cbn [mbind option_bind] in Hrun.
  destruct (rate_position stats ∅ "Forward") as [R1|] eqn:E1; [|discriminate Hrun].
  cbn [mbind option_bind] in Hrun.
  destruct (rate_position stats R1 "Midfielder") as [R2|] eqn:E2; [|discriminate Hrun].
  cbn [mbind option_bind] in Hrun.
  destruct (rate_position stats R2 "Defender") as [R3|] eqn:E3; [|discriminate Hrun].
  cbn [mbind option_bind] in Hrun.
  destruct (rate_position_lookup stats _ _ _ Hnd E1) as [L1 _].
  destruct (rate_position_lookup stats _ _ _ Hnd E2) as [L2 F2].
  destruct (rate_position_lookup stats _ _ _ Hnd E3) as [L3 F3].
  destruct (rate_position_lookup stats _ _ _ Hnd Hrun) as [L4 F4].
  unfold positions in Hpos.
  repeat (apply elem_of_cons in Hpos as [-> | Hpos]);
    [ | | | | apply elem_of_nil in Hpos; destruct Hpos ];
    intros i team avg Hi.
  - rewrite F4, F3, F2 by discriminate. apply L1, Hi.
  - rewrite F4, F3 by discriminate. apply L2, Hi.
  - rewrite F4 by discriminate. apply L3, Hi.
  - apply L4, Hi.
Qed.

(** The run completes as soon as no position group has exactly one
    eligible team. *)
Lemma create_dvp_team_ratings_completes
    (stats : list (string * (string -> @position_stats Q))) :
  NoDup stats.*1 ->
  (forall position, position ∈ positions ->
     length (team_avgs_of stats position) <> 1%nat) ->
  is_Some (create_dvp_team_ratings stats).
Proof.
  intros Hnd Hne.
  assert (Hstep : forall acc position, position ∈ positions ->
                    is_Some (rate_position stats acc position)).
  { intros acc position Hpos. unfold rate_position.
    pose proof (Hne position Hpos) as Hn.
    pose proof (sorted_teams_NoDup stats position Hnd) as HndL.
    destruct (team_avgs_of stats position) as [|x l] eqn:El; [eexists; reflexivity|].
    set (L := sort_by_avg (x :: l)) in *.
    assert (HlenL : length L = S (length l))
      by (unfold L; rewrite sort_by_avg_length; reflexivity).
    cbn [length] in Hn.
    destruct (rate_teams_lookup position (Z.of_nat (length L)) ltac:(lia)
                L 0%Z acc ltac:(lia) HndL) as (R' & HR' & _).
    exists R'. exact HR'. }
  unfold create_dvp_team_ratings, positions. cbn [foldl mbind option_bind].
  destruct (Hstep ∅ "Forward") as [R1 ->]; [unfold positions; set_solver|].
  cbn [mbind option_bind].
  destruct (Hstep R1 "Midfielder") as [R2 ->]; [unfold positions; set_solver|].
  cbn [mbind option_bind].
  destruct (Hstep R2 "Defender") as [R3 ->]; [unfold positions; set_solver|].
  cbn [mbind option_bind].
  apply Hstep. unfold positions; set_solver.
Qed.

Lemma create_dvp_team_ratings_truncated_witness :
  (create_dvp_team_ratings (F := Q) five_teams
     ≫= fun R => rating <$> R !! ("Essendon", "Forward"))
  = Some (Spec.team_rating_truncated 3 5).
Proof.
  assert (Hnd : NoDup (five_teams (F := Q)).*1)
    by (apply (bool_decide_unpack _); vm_compute; exact I).
  assert (Hpos : "Forward" ∈ positions) by (apply list_elem_of_here).
  destruct (create_dvp_team_ratings_completes five_teams Hnd) as [R E].
  { intros position Hin. unfold positions in Hin.
    repeat (apply elem_of_cons in Hin as [-> | Hin]);
      [ | | | | apply elem_of_nil in Hin; destruct Hin ];
      vm_compute; discriminate. }
  rewrite E. cbn [mbind option_bind].
  destruct (create_dvp_team_ratings_truncated five_teams R Hnd E "Forward" Hpos)
    as (_ & _ & Hlook).
  rewrite (Hlook 3%nat "Essendon" 90%Q); [reflexivity|].
  vm_compute. reflexivity.
Defined.

End TeamRatingClaims.

(** *** Ranges *)

Section TeamRange.
Context `{PyNum F}.

Lemma rate_teams_range (position : string) (n : Z) (L : list (string * F)) :
  forall (i : Z) (acc R : gmap (string * string) team_rating),
    map_Forall (fun _ e => Spec.team_in_range e) acc ->
    rate_teams position n i L acc = Some R ->
    map_Forall (fun _ e => Spec.team_in_range e) R.
Proof.
  induction L as [|[team avg] rest IH]; intros i acc R Hacc; cbn [rate_teams].
  - intros [= <-]. exact Hacc.
  - destruct (dvp_rating i n) as [r|] eqn:Er; [|discriminate].
    cbn [mbind option_bind]. apply IH.
    apply map_Forall_insert_2; [|exact Hacc].
    apply (dvp_rating_range i n r Er).
Qed.

Lemma rate_position_range
    (stats : list (string * (string -> @position_stats F)))
    (acc R : gmap (string * string) team_rating) (position : string) :
  map_Forall (fun _ e => Spec.team_in_range e) acc ->
  rate_position stats acc position = Some R ->
  map_Forall (fun _ e => Spec.team_in_range e) R.
Proof.
  intros Hacc. unfold rate_position.
  destruct (team_avgs_of stats position) as [|x l].
  - intros [= <-]. exact Hacc.
  - apply rate_teams_range, Hacc.
Qed.

Lemma create_dvp_team_ratings_range
    (stats : list (string * (string -> @position_stats F)))
    (R : gmap (string * string) team_rating) :
  create_dvp_team_ratings stats = Some R ->
  map_Forall (fun _ e => Spec.team_in_range e) R.
Proof.
  unfold create_dvp_team_ratings.
  assert (Hfold : forall ps (acc : option (gmap (string * string) team_rating)),
             (forall R0, acc = Some R0 -> map_Forall (fun _ e => Spec.team_in_range e) R0) ->
             forall R', foldl (fun acc position =>
                                 ratings ← acc; rate_position stats ratings position)
                              acc ps = Some R' ->
             map_Forall (fun _ e => Spec.team_in_range e) R').
  { induction ps as [|p ps IH]; intros acc Hacc R' HR'; cbn [foldl] in HR'.
    - apply Hacc, HR'.
    - refine (IH _ _ R' HR'). intros R0 HR0.
      destruct acc as [R1|]; [|discriminate HR0].
      cbn [mbind option_bind] in HR0.
      apply (rate_position_range stats R1 R0 p); [apply Hacc; reflexivity | exact HR0]. }
  apply Hfold. intros R0 [= <-]. apply map_Forall_empty.
Qed.

End TeamRange.

Section PlayerRange.
Local Open Scope Q_scope.
Variable np_mean np_std : list Q -> Q.

Lemma clamp_range (x : Q) :
  1 <= py_max (of_Z 1) (py_min (of_Z 10) x) /\
  py_max (of_Z 1) (py_min (of_Z 10) x) <= 10.
Proof.
  unfold py_max, py_min. cbn [ltb of_Z PyNum_Q].
  change (inject_Z 1) with 1. change (inject_Z 10) with 10.
  destruct (Qltb x 10) eqn:E10.
  - apply Qltb_lt in E10. destruct (Qltb 1 x) eqn:E1.
    + apply Qltb_lt in E1. split; apply Qlt_le_weak; assumption.
    + split; [apply Qle_refl | discriminate].
  - destruct (Qltb 1 10) eqn:E1; [|discriminate E1].
    split; [discriminate | apply Qle_refl].
Qed.

Lemma final_rating_of_range (avg_points games_played consistency_score : Q) :
  1 <= final_rating_of avg_points games_played consistency_score /\
  final_rating_of avg_points games_played consistency_score <= 10.
Proof. unfold final_rating_of. apply clamp_range. Qed.

(** Rounding a value of [1, 10] to one decimal stays in [1, 10] and
    yields a number of tenths. *)
Lemma Qround_nd_one_decimal (x : Q) :
  1 <= x -> x <= 10 ->
  1 <= Qround_nd x 1 /\ Qround_nd x 1 <= 10 /\ exists k : Z, Qround_nd x 1 = k # 10.
Proof.
  intros Hlo Hhi. unfold Qround_nd. change (pow10 1) with 10%positive.
  destruct (Qround_half_even_bounds (x * inject_Z 10) 10 100) as [Hk1 Hk2].
  - change (inject_Z 10) with 10. lra.
  - change (inject_Z 10) with 10. change (inject_Z 100) with 100. lra.
  - split; [|split; [|eexists; reflexivity]].
    + unfold Qle. cbn. lia.
    + unfold Qle. cbn. lia.
Qed.

Lemma rate_player_range (player : player_record) (r : player_rating) :
  rate_player np_mean np_std player = Some r -> Spec.player_in_range r.
Proof.
  unfold rate_player.
  destruct (is_zero (AVG player) || String.eqb (PLAYER player) EmptyString); [discriminate|].
  intros [= <-]. unfold Spec.player_in_range. cbn [p_rating round_nd PyNum_Q].
  apply Qround_nd_one_decimal; apply final_rating_of_range.
Qed.

Lemma rate_players_vs_range (opponent : string) (players : list player_record) :
  forall acc : gmap (string * string) player_rating,
    map_Forall (fun _ e => Spec.player_in_range e) acc ->
    map_Forall (fun _ e => Spec.player_in_range e)
               (rate_players_vs np_mean np_std opponent acc players).
Proof.
  unfold rate_players_vs.
  induction players as [|player players IH]; intros acc Hacc; cbn [foldl];
    [exact Hacc|].
  apply IH. destruct (rate_player np_mean np_std player) as [r|] eqn:Er;
    [|exact Hacc].
  apply map_Forall_insert_2; [|exact Hacc].
  apply (rate_player_range player r Er).
Qed.

Lemma calculate_player_dvp_ratings_range
    (player_data : list (string * list (string * option (list player_record)))) :
  map_Forall (fun _ e => Spec.player_in_range e)
             (calculate_player_dvp_ratings np_mean np_std player_data).
Proof.
  unfold calculate_player_dvp_ratings.
  generalize (map_Forall_empty (M := gmap (string * string))
                (fun _ e => Spec.player_in_range e)).
  generalize (∅ : gmap (string * string) (@player_rating Q)).
  induction player_data as [|[team matchups] player_data IH]; intros acc Hacc;
    cbn [foldl]; [exact Hacc|].
  apply IH. clear IH. revert acc Hacc.
  induction matchups as [|[opponent [players|]] matchups IHm]; intros acc Hacc;
    cbn [foldl]; [exact Hacc | |].
  - apply IHm, rate_players_vs_range, Hacc.
  - apply IHm, Hacc.
Qed.

End PlayerRange.

(** C8. Every team defence rating that the engine produces is an
    integer from 1 to 10 (in any arithmetic), and every player matchup
    rating it produces is a number of tenths from 1 to 10 (in exact
    arithmetic, for any behaviour of numpy's mean and std). *)
Theorem dvp_ratings_in_range :
  (forall `{PyNum F} (stats : list (string * (string -> @position_stats F)))
          (key : string * string) (e : team_rating),
      (create_dvp_team_ratings stats ≫= fun R => R !! key) = Some e ->
      (1 <= rating e <= 10)%Z) /\
  (forall (np_mean np_std : list Q -> Q)
          (player_data : list (string * list (string * option (list player_record))))
          (key : string * string) (e : player_rating),
      calculate_player_dvp_ratings np_mean np_std player_data !! key = Some e ->
      (1 <= p_rating e)%Q /\ (p_rating e <= 10)%Q /\
      exists k : Z, p_rating e = (k # 10)%Q).
Proof.
  split.
  - intros F HF stats key e Hrun.
    destruct (create_dvp_team_ratings stats) as [R|] eqn:ER; [|discriminate Hrun].
    cbn [mbind option_bind] in Hrun.
    apply (create_dvp_team_ratings_range stats R ER key e Hrun).
  - intros np_mean np_std player_data key e Hkey.
    apply (calculate_player_dvp_ratings_range np_mean np_std player_data key e Hkey).
Qed.

Lemma dvp_ratings_in_range_witness :
  (1 <= rating (F := Q) Examples.brisbane_forward <= 10)%Z /\
  (1 <= p_rating Examples.gawn_vs_brisbane)%Q /\
  (p_rating Examples.gawn_vs_brisbane <= 10)%Q /\
  exists k : Z, p_rating Examples.gawn_vs_brisbane = (k # 10)%Q.
Proof.
  destruct dvp_ratings_in_range as [Hteam Hplayer]. split.
  - apply (Hteam Q _ Examples.two_teams
             ("Brisbane", "Forward") Examples.brisbane_forward).
    vm_compute. reflexivity.
  - apply (Hplayer Spec.Qmean (fun _ => 5%Q) Examples.one_matchup
             ("Max Gawn", "Brisbane") Examples.gawn_vs_brisbane).
    vm_compute. reflexivity.
Defined.

End DVPProps.

(** ** StatsConsolidator *)

Module ConsolidatorProps.
Import Consolidator.

Section Merge.
Context `{PyNum F}.
Variable normalize_name : string -> string.

(** *** The metrics pass appends its source on every application *)

Lemma merge_metrics_record_lookup
    (ms : gmap string (@profile F)) (player : metrics_record) (p : profile) :
  ms !! normalize_name (m_name player) = Some p ->
  merge_metrics_record normalize_name ms player !! normalize_name (m_name player)
  = Some (update_metrics p player).
Proof.
  intros Hp. unfold merge_metrics_record. rewrite Hp. apply lookup_insert_eq.
Qed.

(** C2, on the code. For every store, metrics record and profile
    stored under the record's key, one application of the metrics pass
    appends ['fantasy_metrics'] to the provenance list and a second
    application with the same record appends it again: the list grows
    by one each time and the twice-merged store differs from the
    once-merged one. *)
Theorem merge_fantasy_metrics_appends_again
    (ms : gmap string (@profile F)) (player : metrics_record)
    (sources : list string) :
  data_sources <$> ms !! normalize_name (m_name player) = Some sources ->
  let once := merge_fantasy_metrics normalize_name ms [player] in
  let twice := merge_fantasy_metrics normalize_name once [player] in
  data_sources <$> once !! normalize_name (m_name player)
    = Some (sources ++ ["fantasy_metrics"]) /\
  data_sources <$> twice !! normalize_name (m_name player)
    = Some (sources ++ ["fantasy_metrics"; "fantasy_metrics"]) /\
  twice <> once.
Proof.
  intros Hsrc once twice.
  destruct (ms !! normalize_name (m_name player)) as [p|] eqn:Hp;
    [|discriminate Hsrc].
  cbn in Hsrc. injection Hsrc as <-.
  assert (H1 : once !! normalize_name (m_name player)
               = Some (update_metrics p player))
    by (apply merge_metrics_record_lookup, Hp).
  assert (H2 : twice !! normalize_name (m_name player)
               = Some (update_metrics (update_metrics p player) player))
    by (apply merge_metrics_record_lookup, H1).
  split; [rewrite H1; reflexivity|].
  split; [rewrite H2; cbn; rewrite <- app_assoc; reflexivity|].
  intros Heq. rewrite Heq, H1 in H2. injection H2 as _ Hds.
  apply (f_equal length) in Hds. rewrite !length_app in Hds. cbn in Hds. lia.
Qed.

(** *** The CSV pass records its source once *)

Lemma append_once_elem (src : string) (l : list string) : src ∈ append_once src l.
Proof.
  unfold append_once. case_bool_decide; [assumption|].
  apply elem_of_app. right. apply list_elem_of_here.
Qed.

Lemma append_once_mono (src x : string) (l : list string) :
  x ∈ l -> x ∈ append_once src l.
Proof.
  intros Hx. unfold append_once. case_bool_decide; [assumption|].
  apply elem_of_app. left. exact Hx.
Qed.

Lemma append_once_id (src : string) (l : list string) :
  src ∈ l -> append_once src l = l.
Proof. intros Hs. unfold append_once. rewrite bool_decide_eq_true_2; auto. Qed.

Lemma update_csv_absorb (field src : string) (p : @profile F) (r r' : csv_row) :
  update_csv field src (update_csv field src p r) r' = update_csv field src p r'.
Proof.
  unfold update_csv. cbn [fields data_sources]. f_equal.
  - apply insert_insert_eq.
  - apply append_once_id, append_once_elem.
Qed.

(** Applying a list of rows to one profile is applying the last row. *)
Lemma foldl_update_csv (field src : string) (rows : list csv_row) :
  forall p : @profile F,
    foldl (update_csv field src) p rows
    = match last rows with
      | Some r => update_csv field src p r
      | None => p
      end.
Proof.
  induction rows as [|r rows IH]; intros p; [reflexivity|].
  cbn [foldl]. rewrite IH. destruct rows as [|r' rows']; [reflexivity|].
  rewrite last_cons_cons. destruct (last (r' :: rows')) eqn:El.
  - apply update_csv_absorb.
  - apply last_None in El. discriminate El.
Qed.

(** A pass changes the profile of a key by the rows of that key. *)
Lemma foldl_merge_csv_row_lookup (field src : string) (rows : list csv_row) :
  forall (ms : gmap string (@profile F)) (k : string),
    foldl (merge_csv_row normalize_name field src) ms rows !! k
    = (fun p => foldl (update_csv field src) p
                  (filter (fun r => normalize_name (r_player r) = k) rows))
        <$> ms !! k.
Proof.
  induction rows as [|r rows IH]; intros ms k; cbn [foldl].
  - rewrite filter_nil. destruct (ms !! k); reflexivity.
  - rewrite IH. unfold merge_csv_row.
    destruct (decide (normalize_name (r_player r) = k)) as [Ek | Nk].
    + rewrite filter_cons_True by exact Ek. rewrite Ek.
      destruct (ms !! k) as [p|] eqn:Hp.
      * rewrite lookup_insert_eq. reflexivity.
      * rewrite Hp. reflexivity.
    + rewrite filter_cons_False by exact Nk.
      destruct (ms !! normalize_name (r_player r)); [|reflexivity].
      rewrite lookup_insert_ne by exact Nk. reflexivity.
Qed.

Lemma update_csv_pair_absorb (f1 s1 f2 s2 : string) (p : @profile F)
    (r1 r2 : csv_row) :
  update_csv f2 s2 (update_csv f1 s1 (update_csv f2 s2 (update_csv f1 s1 p r1) r2) r1) r2
  = update_csv f2 s2 (update_csv f1 s1 p r1) r2.
Proof.
  unfold update_csv. cbn [fields data_sources]. f_equal.
  - apply map_eq. intros i. rewrite !lookup_insert.
    repeat case_decide; reflexivity.
  - rewrite (append_once_id s1) by (apply append_once_mono, append_once_elem).
    apply append_once_id, append_once_elem.
Qed.

(** The CSV pass is idempotent: merging the same CBA and kick-ins rows
    a second time leaves every profile, provenance list included, as
    the first merge left it. *)
Lemma merge_csv_data_idempotent
    (ms : gmap string (@profile F)) (df_cba df_kickins : list csv_row) :
  merge_csv_data normalize_name
    (merge_csv_data normalize_name ms df_cba df_kickins) df_cba df_kickins
  = merge_csv_data normalize_name ms df_cba df_kickins.
Proof.
  apply map_eq. intros k. unfold merge_csv_data.
  rewrite !foldl_merge_csv_row_lookup.
  destruct (ms !! k) as [p|]; [|reflexivity].
  cbn [fmap option_fmap option_map]. f_equal.
  rewrite !foldl_update_csv.
  destruct (last (filter _ df_cba)) as [r1|];
    destruct (last (filter _ df_kickins)) as [r2|].
  - apply update_csv_pair_absorb.
  - apply update_csv_absorb.
  - apply update_csv_absorb.
  - reflexivity.
Qed.

End Merge.

Lemma merge_fantasy_metrics_appends_again_witness :
  let ms : gmap string (@profile Q) := {[ "tom green" := Examples.seeded_profile ]} in
  let once := merge_fantasy_metrics Examples.lowercase ms [Examples.tom_green_metrics] in
  let twice := merge_fantasy_metrics Examples.lowercase once [Examples.tom_green_metrics] in
  data_sources <$> once !! "tom green" = Some ["player_data.json"; "fantasy_metrics"] /\
  data_sources <$> twice !! "tom green"
    = Some ["player_data.json"; "fantasy_metrics"; "fantasy_metrics"] /\
  twice <> once.
Proof.
  apply (merge_fantasy_metrics_appends_again (F := Q) Examples.lowercase
           {[ "tom green" := Examples.seeded_profile ]}
           Examples.tom_green_metrics ["player_data.json"]).
  vm_compute. reflexivity.
Defined.

End ConsolidatorProps.

(** * Further properties of the code *)

(** ** Rounding *)

Section RoundingFacts.
Local Open Scope Q_scope.

Ltac compare_to_order H :=
  match type of H with
  | (_ ?= _)%Q = Eq => apply Qeq_alt in H
  | (_ ?= _)%Q = Lt => apply Qlt_alt in H
  | (_ ?= _)%Q = Gt => apply Qgt_alt in H
  end.

Lemma Qround_half_even_mono (x y : Q) :
  x <= y -> (Qround_half_even x <= Qround_half_even y)%Z.
Proof.
  intros Hxy. pose proof (Qfloor_resp_le _ _ Hxy) as Hf.
  pose proof (Qfloor_le x) as Hx1. pose proof (Qfloor_le y) as Hy1.
  unfold Qround_half_even.
  destruct (Z.eq_dec (Qfloor x) (Qfloor y)) as [E | NE].
  - rewrite <- E in *.
    destruct (x - inject_Z (Qfloor x) ?= 1 # 2) eqn:Cx;
      destruct (y - inject_Z (Qfloor x) ?= 1 # 2) eqn:Cy;
      compare_to_order Cx; compare_to_order Cy;
      destruct (Z.even (Qfloor x)); try lia; exfalso; lra.
  - destruct (x - inject_Z (Qfloor x) ?= 1 # 2);
      destruct (y - inject_Z (Qfloor y) ?= 1 # 2);
      destruct (Z.even (Qfloor x)); destruct (Z.even (Qfloor y)); lia.
Qed.

Lemma Qround_half_even_Z (z : Z) : Qround_half_even (inject_Z z) = z.
Proof.
  unfold Qround_half_even. rewrite Qfloor_Z.
  assert (E : inject_Z z - inject_Z z == 0) by ring.
  rewrite (Qcompare_comp _ _ E (1 # 2) (1 # 2) (Qeq_refl _)). reflexivity.
Qed.

Lemma pow10_pos_Q (d : nat) : 0 < inject_Z (Z.pos (pow10 d)).
Proof. reflexivity. Qed.

Lemma Qround_nd_mono (x y : Q) (d : nat) :
  x <= y -> Qround_nd x d <= Qround_nd y d.
Proof.
  intros Hxy. unfold Qround_nd, Qle. cbn [Qnum Qden].
  apply Z.mul_le_mono_nonneg_r; [lia|].
  apply Qround_half_even_mono.
  apply Qmult_le_compat_r; [exact Hxy | apply Qlt_le_weak, pow10_pos_Q].
Qed.

Lemma Qround_nd_ge_Z (x : Q) (z : Z) : inject_Z z <= x -> inject_Z z <= Qround_nd x 0.
Proof.
  intros Hz. apply (Qround_nd_mono _ _ 0%nat) in Hz.
  eapply Qle_trans; [|exact Hz].
  unfold Qround_nd. change (pow10 0) with 1%positive.
  assert (E : inject_Z z * inject_Z 1 == inject_Z z) by ring.
  rewrite (Qround_half_even_proper _ _ E), Qround_half_even_Z. apply Qle_refl.
Qed.

End RoundingFacts.

(** ** PriceModel, continued *)

Module PriceModelMore.
Import PriceModel.

Section AnyArithmetic.
Context `{PyNum F}.

Lemma filter_firstn_filter {A : Type} (f : A -> bool) (n : nat) (l : list A) :
  List.filter f (firstn n (List.filter f l)) = firstn n (List.filter f l).
Proof.
  revert n. induction l as [|x l IH]; intros n; cbn [List.filter].
  - rewrite firstn_nil. reflexivity.
  - destruct (f x) eqn:E; [|apply IH].
    destruct n as [|n]; [reflexivity|].
    cbn [firstn List.filter]. rewrite E, IH. reflexivity.
Qed.

(** Only the first five valid scores reach the price: with five valid
    scores or more, everything after the fifth is ignored. *)
Theorem calculate_price_change_first_five
    (old_price : F) (scores : list F) (round_num : Z) :
  (5 <= length (valid_scores scores))%nat ->
  calculate_price_change old_price scores round_num
  = calculate_price_change old_price (firstn 5 (valid_scores scores)) round_num.
Proof.
  intros Hlen. unfold calculate_price_change.
  assert (Hv : valid_scores (firstn 5 (valid_scores scores))
               = firstn 5 (valid_scores scores))
    by (unfold valid_scores; apply filter_firstn_filter).
  rewrite Hv.
  assert (Hl5 : length (firstn 5 (valid_scores scores)) = 5%nat)
    by (apply firstn_length_le, Hlen).
  rewrite Hl5.
  assert (Hw : price_window (valid_scores scores)
               = price_window (firstn 5 (valid_scores scores))).
  { unfold price_window. rewrite Hl5, !Nat.ltb_irrefl.
    destruct (length (valid_scores scores) <? 5)%nat eqn:E5;
      [apply Nat.ltb_lt in E5; lia|].
    destruct (5 <? length (valid_scores scores))%nat eqn:E6; [reflexivity|].
    apply Nat.ltb_ge in E6. symmetry. apply firstn_all2. lia. }
  rewrite Hw.
  destruct (length (valid_scores scores) <? 3)%nat eqn:E3;
    [apply Nat.ltb_lt in E3; lia | reflexivity].
Qed.

(** A round without a registered magic number (any round outside 0..23)
    is priced with the default 9736, that is, like round 23. *)
Theorem calculate_price_change_default_round
    (old_price : F) (scores : list F) (round_num : Z) :
  (round_num < 0 \/ 23 < round_num)%Z ->
  calculate_price_change old_price scores round_num
  = calculate_price_change old_price scores 23.
Proof.
  intros Hr. unfold calculate_price_change.
  assert (Hnone : magic_numbers !! round_num = None).
  { unfold magic_numbers. apply not_elem_of_list_to_map_1.
    cbn [fmap list_fmap fst]. intros Hin.
    repeat (apply elem_of_cons in Hin as [-> | Hin]; [lia|]).
    apply elem_of_nil in Hin. exact Hin. }
  rewrite Hnone. reflexivity.
Qed.

End AnyArithmetic.

Section ExactArithmetic.
Local Open Scope Q_scope.

(** A round that was not played (a score that is not greater than 0)
    does not change the price, wherever it stands in the list. *)
Theorem calculate_price_change_skips_unplayed
    (old_price : Q) (before after : list Q) (z : Q) (round_num : Z) :
  z <= 0 ->
  calculate_price_change old_price (before ++ z :: after) round_num
  = calculate_price_change old_price (before ++ after) round_num.
Proof.
  intros Hz. unfold calculate_price_change.
  assert (Hv : valid_scores (before ++ z :: after) = valid_scores (before ++ after)).
  { unfold valid_scores. rewrite !List.filter_app. cbn [List.filter ltb of_Z PyNum_Q].
    change (inject_Z 0) with 0. apply Qltb_ge in Hz. rewrite Hz. reflexivity. }
  rewrite Hv. reflexivity.
Qed.

(** *** Price change from the break-even *)

Ltac unfold_from_breakeven :=
  unfold calculate_price_change_from_breakeven, low_price_threshold,
    high_price_threshold, price_per_point, protection_threshold;
  cbn [add sub mul ltb leb absf round_nd of_Z lit PyNum_Q];
  change (inject_Z 300000) with (300000 : Q);
  change (inject_Z 1300000) with (1300000 : Q);
  change (inject_Z 300) with (300 : Q);
  change (inject_Z 0) with (0 : Q);
  change (inject_Z 10) with (10 : Q);
  change (inject_Z 15000) with (15000 : Q);
  change (inject_Z 200000) with (200000 : Q);
  change (14 # pow10 1) with (14 # 10); change (7 # pow10 1) with (7 # 10);
  change (6 # pow10 1) with (6 # 10); change (12 # pow10 1) with (12 # 10);
  change (10 # pow10 1) with (10 # 10).

(** The new price is never below the floor of 200000. *)
Theorem price_change_from_breakeven_floor
    (current_price actual_score breakeven_score : Q) :
  200000 <= calculate_price_change_from_breakeven
              current_price actual_score breakeven_score.
Proof.
  unfold_from_breakeven.
  apply (Qround_nd_ge_Z _ 200000).
  change (inject_Z 200000) with (200000 : Q).
  rewrite (PriceModelProps.py_max_Qmax _ _ _ (Qeq_refl _)).
  apply Q.le_max_r.
Qed.

(** A score within 10 points of the break-even always leaves the price
    where it was (floored and rounded): at such a distance the adjusted
    change is at most 4200 in every tier, so the 15000 test cannot fail. *)
Theorem price_change_from_breakeven_protected
    (current_price actual_score breakeven_score : Q) :
  Qabs (actual_score - breakeven_score) <= 10 ->
  calculate_price_change_from_breakeven current_price actual_score breakeven_score
  = Qround_nd (Qmax current_price 200000) 0.
Proof.
  intros Hd. unfold_from_breakeven.
  pose proof Hd as Hd'. apply Qle_bool_iff in Hd'. rewrite Hd'.
  apply Qabs_Qle_condition in Hd. destruct Hd as [Hlo Hhi].
  set (d := actual_score - breakeven_score) in *.
  assert (Hsmall :
    Qltb (Qabs (d * 300 *
            (if Qltb current_price 300000
             then if Qltb 0 (d * 300) then 14 # 10 else 7 # 10
             else if Qltb 1300000 current_price
                  then if Qltb 0 (d * 300) then 6 # 10 else 12 # 10
                  else 10 # 10))) 15000 = true).
  { apply Qltb_lt.
    destruct (Qltb current_price 300000); [|destruct (Qltb 1300000 current_price)];
      try destruct (Qltb 0 (d * 300));
      (apply Qabs_case; intros _; lra). }
  rewrite Hsmall. cbn [andb].
  apply Qround_nd_proper; [|reflexivity].
  apply PriceModelProps.py_max_Qmax. ring.
Qed.

(** The sign of the change follows the score: a score at or above the
    break-even never lowers the rounded price, and a score at or below it
    never raises the price above its floored and rounded value. *)
Theorem price_change_from_breakeven_direction
    (current_price actual_score breakeven_score : Q) :
  (breakeven_score <= actual_score ->
   Qround_nd current_price 0
   <= calculate_price_change_from_breakeven current_price actual_score breakeven_score) /\
  (actual_score <= breakeven_score ->
   calculate_price_change_from_breakeven current_price actual_score breakeven_score
   <= Qround_nd (Qmax current_price 200000) 0).
Proof.
  split; intros Hs; unfold_from_breakeven; apply Qround_nd_mono;
    set (d := actual_score - breakeven_score);
    rewrite (PriceModelProps.py_max_Qmax _ _ _ (Qeq_refl _)).
  - assert (Hd : 0 <= d) by (unfold d; lra).
    eapply Qle_trans; [|apply Q.le_max_l].
    destruct (Qle_bool (Qabs d) 10 && Qltb _ 15000); [lra|].
    destruct (Qltb current_price 300000); [|destruct (Qltb 1300000 current_price)];
      try destruct (Qltb 0 (d * 300)); lra.
  - assert (Hd : d <= 0) by (unfold d; lra).
    apply Q.max_le_compat_r.
    destruct (Qle_bool (Qabs d) 10 && Qltb _ 15000); [lra|].
    destruct (Qltb current_price 300000); [|destruct (Qltb 1300000 current_price)];
      try destruct (Qltb 0 (d * 300)); lra.
Qed.

(** *** The price change reported to the server *)

Lemma valid_scores_padding (scores : list Q) (k : nat) :
  valid_scores (scores ++ List.repeat (of_Z 0) k) = valid_scores scores.
Proof.
  unfold valid_scores. rewrite List.filter_app.
  assert (Hz : List.filter (fun s : Q => (of_Z 0 <? s)%py) (List.repeat (of_Z 0) k) = []).
  { induction k as [|k IH]; [reflexivity|]. cbn [List.repeat List.filter].
    exact IH. }
  rewrite Hz. apply app_nil_r.
Qed.

(** When fewer than three of a player's five most recent games have a
    score above 0, the price change sent to the server is zero; the zeros
    that pad a short game log count as games not played. *)
Theorem server_price_change_zero (current_price : Q) (game_logs : list game_log) :
  (length (valid_scores (map score_of (firstn 5 (sort_by_round game_logs)))) < 3)%nat ->
  server_price_change current_price game_logs == 0.
Proof.
  intros Hlen. unfold server_price_change, recent_scores_of, calculate_price_change.
  rewrite valid_scores_padding.
  apply Nat.ltb_lt in Hlen. rewrite Hlen.
  cbn [sub PyNum_Q]. ring.
Qed.

End ExactArithmetic.

Lemma calculate_price_change_skips_unplayed_witness :
  calculate_price_change (640000 : Q) ([85; 92] ++ 0 :: [78; 88])%Q 12
  = calculate_price_change (640000 : Q) ([85; 92] ++ [78; 88])%Q 12.
Proof.
  apply (calculate_price_change_skips_unplayed 640000%Q [85; 92]%Q [78; 88]%Q 0%Q 12).
  discriminate.
Defined.

Lemma price_change_from_breakeven_protected_witness :
  calculate_price_change_from_breakeven (250000 : Q) 75%Q 70%Q
  = Qround_nd (Qmax 250000 200000) 0.
Proof.
  apply (price_change_from_breakeven_protected 250000%Q 75%Q 70%Q).
  vm_compute. discriminate.
Defined.

Lemma price_change_from_breakeven_direction_witness :
  (Qround_nd 250000 0
   <= calculate_price_change_from_breakeven (250000 : Q) 90%Q 70%Q)%Q /\
  (calculate_price_change_from_breakeven (250000 : Q) 50%Q 70%Q
   <= Qround_nd (Qmax 250000 200000) 0)%Q.
Proof.
  split.
  - apply (price_change_from_breakeven_direction 250000%Q 90%Q 70%Q). discriminate.
  - apply (price_change_from_breakeven_direction 250000%Q 50%Q 70%Q). discriminate.
Defined.

Lemma server_price_change_zero_witness :
  (server_price_change (640000 : Q)
     [ {| RD := 21%Q; FP := Some 90%Q |}; {| RD := 22%Q; FP := None |};
       {| RD := 23%Q; FP := Some 75%Q |} ] == 0)%Q.
Proof.
  apply (server_price_change_zero 640000%Q). vm_compute. lia.
Defined.

Lemma calculate_price_change_first_five_witness :
  calculate_price_change (640000 : Q) [85; 0; 92; 78; 88; 95; 60; 71]%Q 12
  = calculate_price_change (640000 : Q)
      (firstn 5 (valid_scores [85; 0; 92; 78; 88; 95; 60; 71]%Q)) 12.
Proof.
  apply (calculate_price_change_first_five (F := Q)). vm_compute. lia.
Defined.

Lemma calculate_price_change_default_round_witness :
  calculate_price_change (640000 : Q) [85; 92; 78]%Q 24
  = calculate_price_change (640000 : Q) [85; 92; 78]%Q 23.
Proof.
  apply (calculate_price_change_default_round (F := Q)). right. lia.
Defined.

End PriceModelMore.

(** ** DVPRatingEngine, continued *)

Module DVPMore.
Import DVP DVPProps.

Section AnyArithmetic.
Context `{PyNum F}.

(** *** Which teams are rated *)

Lemma rate_teams_dom (position : string) (n : Z) (L : list (string * F)) :
  forall (i : Z) (acc R : gmap (string * string) team_rating),
    rate_teams position n i L acc = Some R ->
    forall team p,
      is_Some (R !! (team, p)) <->
      is_Some (acc !! (team, p)) \/ (p = position /\ team ∈ L.*1).
Proof.
  induction L as [|[t avg] rest IH]; intros i acc R HR team p; cbn [rate_teams] in HR.
  - injection HR as <-. cbn. rewrite elem_of_nil. tauto.
  - destruct (dvp_rating i n) as [r|]; [|discriminate HR].
    cbn [mbind option_bind] in HR.
    rewrite (IH _ _ _ HR team p), lookup_insert_is_Some.
    cbn [fmap list_fmap fst]. rewrite elem_of_cons.
    split.
    + intros [[[= -> ->] | [_ Hacc]] | [-> Hin]]; auto.
    + intros [Hacc | [-> [-> | Hin]]]; auto.
      destruct (decide ((t, position) = (team, p))) as [E | NE]; auto.
Qed.

Lemma rate_position_dom
    (stats : list (string * (string -> @position_stats F)))
    (acc R : gmap (string * string) team_rating) (position : string) :
  rate_position stats acc position = Some R ->
  forall team p,
    is_Some (R !! (team, p)) <->
    is_Some (acc !! (team, p)) \/
    (p = position /\ team ∈ (team_avgs_of stats position).*1).
Proof.
  unfold rate_position. intros HR team p.
  destruct (team_avgs_of stats position) as [|x l] eqn:El.
  - injection HR as <-. cbn. rewrite elem_of_nil. tauto.
  - rewrite (rate_teams_dom _ _ _ _ _ _ HR team p).
    rewrite (sort_by_avg_perm (x :: l)) at 1. reflexivity.
Qed.

Lemma team_avgs_of_elem
    (stats : list (string * (string -> @position_stats F)))
    (position team : string) :
  team ∈ (team_avgs_of stats position).*1 <->
  exists st, (team, st) ∈ stats /\ (3 <= sample_size (st position))%Z.
Proof.
  unfold team_avgs_of. rewrite list_elem_of_fmap. split.
  - intros ([t avg] & -> & Hin). apply list_elem_of_omap in Hin.
    destruct Hin as ([t' st] & Hin & Hsome).
    destruct (3 <=? sample_size (st position))%Z eqn:E; [|discriminate Hsome].
    injection Hsome as <- _. exists st. split; [exact Hin | apply Z.leb_le, E].
  - intros (st & Hin & Hs). exists (team, avg_points_allowed (st position)).
    split; [reflexivity|]. apply list_elem_of_omap. exists (team, st).
    split; [exact Hin|]. apply Z.leb_le in Hs. rewrite Hs. reflexivity.
Qed.

(** Which teams a completed run rates. *)
Lemma team_rated_exactly_when
    (stats : list (string * (string -> @position_stats F)))
    (R : gmap (string * string) team_rating) (team position : string) :
  create_dvp_team_ratings stats = Some R ->
  (is_Some (R !! (team, position)) <->
   position ∈ positions /\
   exists st, (team, st) ∈ stats /\ (3 <= sample_size (st position))%Z).
Proof.
  intros Hrun. rewrite <- team_avgs_of_elem.
  unfold create_dvp_team_ratings, positions in *. cbn [foldl] in Hrun.
  cbn [mbind option_bind] in Hrun.
  destruct (rate_position stats ∅ "Forward") as [R1|] eqn:E1; [|discriminate Hrun].
  cbn [mbind option_bind] in Hrun.
  destruct (rate_position stats R1 "Midfielder") as [R2|] eqn:E2; [|discriminate Hrun].
  cbn [mbind option_bind] in Hrun.
  destruct (rate_position stats R2 "Defender") as [R3|] eqn:E3; [|discriminate Hrun].
  cbn [mbind option_bind] in Hrun.
  rewrite (rate_position_dom _ _ _ _ Hrun), (rate_position_dom _ _ _ _ E3),
    (rate_position_dom _ _ _ _ E2), (rate_position_dom _ _ _ _ E1).
  rewrite lookup_empty, !elem_of_cons, elem_of_nil.
  split.
  - intros [[[[Hn | [-> Hin]] | [-> Hin]] | [-> Hin]] | [-> Hin]]; auto 10.
    destruct Hn as [? Hn]. discriminate Hn.
  - intros [[-> | [-> | [-> | [-> | []]]]] Hin]; auto 10.
Qed.

(** A completed run rates a team for a position exactly when the
    position is one of the four groups and the team has at least three
    samples there; teams below that count get no entry, not a zero. *)
Theorem create_dvp_team_ratings_rated_iff
    (stats : list (string * (string -> @position_stats F)))
    (R : gmap (string * string) team_rating) (team position : string) :
  create_dvp_team_ratings stats = Some R ->
  (is_Some (R !! (team, position)) <->
   position ∈ positions /\
   exists st, (team, st) ∈ stats /\ (3 <= sample_size (st position))%Z).
Proof. exact (team_rated_exactly_when stats R team position). Qed.

(** *** When the run raises *)

Lemma rate_teams_total (position : string) (n : Z) (L : list (string * F)) :
  (n - 1)%Z <> 0%Z ->
  forall (i : Z) (acc : gmap (string * string) team_rating),
    is_Some (rate_teams position n i L acc).
Proof.
  intros Hn. induction L as [|[t avg] rest IH]; intros i acc; cbn [rate_teams].
  - eexists; reflexivity.
  - unfold dvp_rating. apply Z.eqb_neq in Hn. rewrite Hn.
    cbn [mbind option_bind]. apply IH.
Qed.

Lemma rate_position_is_Some
    (stats : list (string * (string -> @position_stats F)))
    (acc : gmap (string * string) team_rating) (position : string) :
  is_Some (rate_position stats acc position) <->
  length (team_avgs_of stats position) <> 1%nat.
Proof.
  unfold rate_position.
  destruct (team_avgs_of stats position) as [|x l] eqn:El.
  - split; [intros _; discriminate | intros _; eexists; reflexivity].
  - pose proof (sort_by_avg_length (x :: l)) as HlenL.
    destruct (sort_by_avg (x :: l)) as [|[t a] [|y L']] eqn:EL;
      cbn [length] in *; try lia.
    + assert (l = []) as -> by (destruct l; [reflexivity | cbn in HlenL; lia]).
      cbn [rate_teams length]. rewrite dvp_rating_single. cbn [mbind option_bind].
      split; [intros [? Hn]; discriminate Hn | intros Hn; exfalso; apply Hn; reflexivity].
    + split; [intros _; lia|]. intros _. apply rate_teams_total. lia.
Qed.

(** When the run completes. *)
Lemma run_completes_exactly_when
    (stats : list (string * (string -> @position_stats F))) :
  is_Some (create_dvp_team_ratings stats) <->
  forall position, position ∈ positions ->
    length (team_avgs_of stats position) <> 1%nat.
Proof.
  unfold create_dvp_team_ratings, positions. cbn [foldl mbind option_bind].
  split.
  - intros Hs position Hpos.
    destruct (rate_position stats ∅ "Forward") as [R1|] eqn:E1;
      [|destruct Hs as [? Hs]; discriminate Hs].
    cbn [mbind option_bind] in Hs.
    destruct (rate_position stats R1 "Midfielder") as [R2|] eqn:E2;
      [|destruct Hs as [? Hs]; discriminate Hs].
    cbn [mbind option_bind] in Hs.
    destruct (rate_position stats R2 "Defender") as [R3|] eqn:E3;
      [|destruct Hs as [? Hs]; discriminate Hs].
    cbn [mbind option_bind] in Hs.
    repeat (apply elem_of_cons in Hpos as [-> | Hpos]);
      [ | | | | apply elem_of_nil in Hpos; destruct Hpos ].
    + apply (rate_position_is_Some stats ∅). rewrite E1. eexists; reflexivity.
    + apply (rate_position_is_Some stats R1). rewrite E2. eexists; reflexivity.
    + apply (rate_position_is_Some stats R2). rewrite E3. eexists; reflexivity.
    + apply (rate_position_is_Some stats R3). exact Hs.
  - intros Hne.
    assert (Hstep : forall acc position, position ∈ positions ->
                      is_Some (rate_position stats acc position)).
    { intros acc position Hpos. apply rate_position_is_Some, Hne, Hpos. }
    unfold positions in Hstep.
    destruct (Hstep ∅ "Forward") as [R1 ->]; [set_solver|].
    cbn [mbind option_bind].
    destruct (Hstep R1 "Midfielder") as [R2 ->]; [set_solver|].
    cbn [mbind option_bind].
    destruct (Hstep R2 "Defender") as [R3 ->]; [set_solver|].
    cbn [mbind option_bind].
    apply Hstep. set_solver.
Qed.

(** The run completes exactly when no position group has a single
    eligible team; with exactly one, [i / (n - 1)] divides by zero and the
    whole run raises. *)
Theorem create_dvp_team_ratings_completes_iff
    (stats : list (string * (string -> @position_stats F))) :
  is_Some (create_dvp_team_ratings stats) <->
  forall position, position ∈ positions ->
    length (team_avgs_of stats position) <> 1%nat.
Proof. exact (run_completes_exactly_when stats). Qed.

End AnyArithmetic.

Section ExactArithmetic.
Local Open Scope Q_scope.

(** *** Ratings along the sorted order *)

(** The entries of a completed run, by sorted index. *)
Lemma create_dvp_team_ratings_lookup
    (stats : list (string * (string -> @position_stats Q)))
    (R : gmap (string * string) (@team_rating Q)) (position : string) :
  NoDup stats.*1 ->
  create_dvp_team_ratings stats = Some R ->
  position ∈ positions ->
  forall (i : nat) team avg,
    sort_by_avg (team_avgs_of stats position) !! i = Some (team, avg) ->
    R !! (team, position)
    = Some {| rating :=
                Spec.team_rating_truncated (Z.of_nat i)
                  (Z.of_nat (length (sort_by_avg (team_avgs_of stats position))));
              rating_avg_points_allowed := avg;
              rank := Z.of_nat i + 1 |}.
Proof.
  intros Hnd Hrun Hpos.
  unfold create_dvp_team_ratings, positions in Hrun. cbn [foldl] in Hrun.
  cbn [mbind option_bind] in Hrun.
  destruct (rate_position stats ∅ "Forward") as [R1|] eqn:E1; [|discriminate Hrun].
  cbn [mbind option_bind] in Hrun.
  destruct (rate_position stats R1 "Midfielder") as [R2|] eqn:E2; [|discriminate Hrun].
  cbn [mbind option_bind] in Hrun.
  destruct (rate_position stats R2 "Defender") as [R3|] eqn:E3; [|discriminate Hrun].
  cbn [mbind option_bind] in Hrun.
  destruct (rate_position_lookup stats _ _ _ Hnd E1) as [L1 _].
  destruct (rate_position_lookup stats _ _ _ Hnd E2) as [L2 F2].
  destruct (rate_position_lookup stats _ _ _ Hnd E3) as [L3 F3].
  destruct (rate_position_lookup stats _ _ _ Hnd Hrun) as [L4 F4].
  unfold positions in Hpos.
  repeat (apply elem_of_cons in Hpos as [-> | Hpos]);
    [ | | | | apply elem_of_nil in Hpos; destruct Hpos ];
    intros i team avg Hi.
  - rewrite F4, F3, F2 by discriminate. apply L1, Hi.
  - rewrite F4, F3 by discriminate. apply L2, Hi.
  - rewrite F4 by discriminate. apply L3, Hi.
  - apply L4, Hi.
Qed.

Lemma team_rating_truncated_first (n : Z) : Spec.team_rating_truncated 0 n = 1%Z.
Proof. unfold Spec.team_rating_truncated. rewrite Z.mul_0_r, Zdiv_0_l. reflexivity. Qed.

Lemma team_rating_truncated_last (n : Z) :
  (2 <= n)%Z -> Spec.team_rating_truncated (n - 1) n = 10%Z.
Proof.
  intros Hn. unfold Spec.team_rating_truncated.
  rewrite Z.div_mul by lia. reflexivity.
Qed.

Lemma team_rating_truncated_mono (i j n : Z) :
  (2 <= n)%Z -> (i <= j)%Z ->
  (Spec.team_rating_truncated i n <= Spec.team_rating_truncated j n)%Z.
Proof.
  intros Hn Hij. unfold Spec.team_rating_truncated.
  assert (Hd : (9 * i / (n - 1) <= 9 * j / (n - 1))%Z)
    by (apply Z.div_le_mono; lia).
  lia.
Qed.

(** In a completed run the best defence of a position (the first team
    of the sorted order) is rated 1 and the worst (the last team) is
    rated 10. *)
Theorem create_dvp_team_ratings_extremes
    (stats : list (string * (string -> @position_stats Q)))
    (R : gmap (string * string) (@team_rating Q)) (position : string) :
  NoDup stats.*1 ->
  create_dvp_team_ratings stats = Some R ->
  position ∈ positions ->
  forall team avg,
    (head (sort_by_avg (team_avgs_of stats position)) = Some (team, avg) ->
     rating <$> R !! (team, position) = Some 1%Z) /\
    (last (sort_by_avg (team_avgs_of stats position)) = Some (team, avg) ->
     rating <$> R !! (team, position) = Some 10%Z).
Proof.
  intros Hnd Hrun Hpos team avg.
  pose proof (create_dvp_team_ratings_lookup stats R position Hnd Hrun Hpos) as Hlook.
  assert (Hne : length (team_avgs_of stats position) <> 1%nat).
  { apply (proj1 (run_completes_exactly_when stats)); [|exact Hpos].
    rewrite Hrun. eexists; reflexivity. }
  rewrite <- (sort_by_avg_length (team_avgs_of stats position)) in Hne.
  set (L := sort_by_avg (team_avgs_of stats position)) in *.
  split; intros HL.
  - rewrite (Hlook 0%nat team avg); [|rewrite <- head_lookup; exact HL].
    cbn [fmap option_fmap option_map rating Z.of_nat].
    rewrite team_rating_truncated_first. reflexivity.
  - rewrite last_lookup in HL.
    assert (Hlen : (2 <= length L)%nat).
    { destruct L as [|x [|y L']]; cbn [length] in *; try lia.
      cbn in HL. discriminate HL. }
    rewrite (Hlook _ team avg HL).
    cbn [fmap option_fmap option_map rating].
    replace (Z.of_nat (pred (length L))) with (Z.of_nat (length L) - 1)%Z by lia.
    rewrite team_rating_truncated_last by lia. reflexivity.
Qed.

Lemma StronglySorted_lookup {A : Type} (Rel : A -> A -> Prop) (l : list A) :
  StronglySorted Rel l ->
  forall (i j : nat) x y,
    (i < j)%nat -> l !! i = Some x -> l !! j = Some y -> Rel x y.
Proof.
  induction 1 as [|a l Hs IH Hall]; intros i j x y Hij Hi Hj.
  - rewrite lookup_nil in Hi. discriminate Hi.
  - destruct j as [|j]; [lia|]. cbn in Hj. destruct i as [|i].
    + cbn in Hi. injection Hi as <-.
      rewrite List.Forall_forall in Hall. apply Hall.
      apply list_elem_of_In, list_elem_of_lookup. exists j. exact Hj.
    + cbn in Hi. apply (IH i j); [lia | exact Hi | exact Hj].
Qed.

Lemma avg_le_transitive : Transitive Spec.avg_le.
Proof. intros x y z Hxy Hyz. unfold Spec.avg_le in *. eapply Qle_trans; eassumption. Qed.

(** Within a position, a team that allows fewer points on average never
    gets a higher rating than a team that allows more. *)
Theorem create_dvp_team_ratings_monotone
    (stats : list (string * (string -> @position_stats Q)))
    (R : gmap (string * string) (@team_rating Q)) (position : string)
    (team_a team_b : string) (ea eb : team_rating) :
  NoDup stats.*1 ->
  create_dvp_team_ratings stats = Some R ->
  position ∈ positions ->
  R !! (team_a, position) = Some ea ->
  R !! (team_b, position) = Some eb ->
  rating_avg_points_allowed ea < rating_avg_points_allowed eb ->
  (rating ea <= rating eb)%Z.
Proof.
  intros Hnd Hrun Hpos Ha Hb Hlt.
  pose proof (create_dvp_team_ratings_lookup stats R position Hnd Hrun Hpos) as Hlook.
  assert (Hne : length (team_avgs_of stats position) <> 1%nat).
  { apply (proj1 (run_completes_exactly_when stats)); [|exact Hpos].
    rewrite Hrun. eexists; reflexivity. }
  rewrite <- (sort_by_avg_length (team_avgs_of stats position)) in Hne.
  assert (Hidx : forall team e, R !! (team, position) = Some e ->
            exists (i : nat) avg,
              sort_by_avg (team_avgs_of stats position) !! i = Some (team, avg)).
  { intros team e He.
    assert (Hs : is_Some (R !! (team, position))) by (rewrite He; eexists; reflexivity).
    apply (team_rated_exactly_when stats R team position Hrun) in Hs.
    destruct Hs as [_ Hs]. apply team_avgs_of_elem in Hs.
    rewrite <- (sort_by_avg_perm (team_avgs_of stats position)) in Hs.
    apply list_elem_of_fmap in Hs. destruct Hs as ([t avg] & -> & Hin).
    apply list_elem_of_lookup in Hin. destruct Hin as [i Hi].
    exists i, avg. exact Hi. }
  destruct (Hidx team_a ea Ha) as (i & avg_a & Hi).
  destruct (Hidx team_b eb Hb) as (j & avg_b & Hj).
  rewrite (Hlook i team_a avg_a Hi) in Ha. injection Ha as <-.
  rewrite (Hlook j team_b avg_b Hj) in Hb. injection Hb as <-.
  cbn [rating rating_avg_points_allowed] in *.
  set (L := sort_by_avg (team_avgs_of stats position)) in *.
  assert (Hlen : (2 <= length L)%nat).
  { pose proof (lookup_lt_Some _ _ _ Hi) as Hi'.
    pose proof (lookup_lt_Some _ _ _ Hj) as Hj'.
    destruct (decide (i = j)) as [-> | Hij].
    - rewrite Hi in Hj. injection Hj as _ Heq. rewrite Heq in Hlt. lra.
    - lia. }
  apply team_rating_truncated_mono; [lia|].
  destruct (decide (i <= j)%nat) as [Hle | Hgt]; [lia|].
  exfalso.
  assert (Hss : StronglySorted Spec.avg_le L)
    by (apply Sorted_StronglySorted; [apply avg_le_transitive | apply sort_by_avg_sorted]).
  pose proof (StronglySorted_lookup Spec.avg_le L Hss j i _ _ ltac:(lia) Hj Hi) as Hle.
  unfold Spec.avg_le in Hle. cbn in Hle. lra.
Qed.

(** The sort is stable: teams with the same average stay in the order of
    the table. *)
Theorem sort_by_avg_stable (l : list (string * Q)) (v : Q) :
  List.filter (fun x => Qeq_bool (snd x) v) (sort_by_avg l)
  = List.filter (fun x => Qeq_bool (snd x) v) l.
Proof.
  assert (Hins : forall x l0,
            List.filter (fun y => Qeq_bool (snd y) v) (insert_by_avg x l0)
            = List.filter (fun y => Qeq_bool (snd y) v) (x :: l0)).
  { intros x l0. induction l0 as [|y l0 IH]; [reflexivity|].
    cbn [insert_by_avg]. destruct (snd y <? snd x)%py eqn:E; [|reflexivity].
    cbn [List.filter] in *. rewrite IH.
    destruct (Qeq_bool (snd x) v) eqn:Ex; [|reflexivity].
    destruct (Qeq_bool (snd y) v) eqn:Ey; [|reflexivity].
    exfalso. apply Qeq_bool_iff in Ex. apply Qeq_bool_iff in Ey.
    apply Qltb_lt in E. lra. }
  induction l as [|x l IH]; [reflexivity|].
  cbn [sort_by_avg foldr]. fold (sort_by_avg l). rewrite Hins.
  cbn [List.filter]. rewrite IH. reflexivity.
Qed.

End ExactArithmetic.

(** *** The table of team defences *)

Section DefenceTable.
Context `{PyNum F}.

Lemma insertion_order_from (keys seen : list string) :
  NoDup seen ->
  NoDup (foldl (fun seen k => if bool_decide (k ∈ seen) then seen else seen ++ [k])
               seen keys) /\
  forall k,
    k ∈ foldl (fun seen k => if bool_decide (k ∈ seen) then seen else seen ++ [k])
              seen keys
    <-> k ∈ seen \/ k ∈ keys.
Proof.
  revert seen. induction keys as [|x keys IH]; intros seen Hnd; cbn [foldl].
  - split; [exact Hnd|]. intros k. rewrite elem_of_nil. tauto.
  - case_bool_decide as Hx.
    + destruct (IH seen Hnd) as [Hn Hm]. split; [exact Hn|].
      intros k. rewrite Hm, elem_of_cons. split; [tauto|].
      intros [Hk | [-> | Hk]]; auto.
    + assert (Hnd' : NoDup (seen ++ [x])).
      { apply NoDup_app. split; [exact Hnd|]. split; [|apply NoDup_singleton].
        intros y Hy Hy'. apply list_elem_of_singleton in Hy'. subst y. exact (Hx Hy). }
      destruct (IH (seen ++ [x]) Hnd') as [Hn Hm]. split; [exact Hn|].
      intros k. rewrite Hm, elem_of_app, list_elem_of_singleton, elem_of_cons. tauto.
Qed.

Lemma points_list_elem (ss : list (string * string * F)) (team position : string) (x : F) :
  x ∈ points_list ss team position <-> (team, position, x) ∈ ss.
Proof.
  unfold points_list. rewrite list_elem_of_omap. split.
  - intros ([[t p0] v] & Hin & Hsome). cbn [fst snd] in Hsome.
    destruct (String.eqb t team) eqn:Et; [|discriminate Hsome].
    destruct (String.eqb p0 position) eqn:Ep; [|discriminate Hsome].
    cbn [andb] in Hsome. injection Hsome as <-.
    apply String.eqb_eq in Et. apply String.eqb_eq in Ep. subst. exact Hin.
  - intros Hin. exists (team, position, x). split; [exact Hin|].
    cbn [fst snd]. rewrite !String.eqb_refl. reflexivity.
Qed.

Lemma stats_of_sample_size (points : list F) :
  sample_size (stats_of points) = Z.of_nat (length points).
Proof. destruct points; reflexivity. Qed.

(** The table has one row per opponent that received a sample and no
    opponent twice. *)
Theorem calculate_team_defense_ratings_rows
    (player_to_position : gmap string string)
    (player_data : list (string * list (string * option (list (@player_record F))))) :
  NoDup (calculate_team_defense_ratings player_to_position player_data
           : list (string * (string -> @position_stats F))).*1 /\
  forall team,
    team ∈ (calculate_team_defense_ratings player_to_position player_data
              : list (string * (string -> @position_stats F))).*1
    <-> exists position avg,
          (team, position, avg) ∈ samples player_to_position player_data.
Proof.
  unfold calculate_team_defense_ratings.
  set (ss := samples player_to_position player_data).
  assert (Hfst : (map (fun team : string =>
                         (team, fun position : string =>
                                  stats_of (points_list ss team position)))
                      (insertion_order
                         (map (fun s : string * string * F => fst (fst s)) ss))).*1
                 = insertion_order (map (fun s : string * string * F => fst (fst s)) ss)).
  { generalize (insertion_order (map (fun s : string * string * F => fst (fst s)) ss)).
    intros l. induction l as [|t l IH]; [reflexivity|]. cbn. f_equal. exact IH. }
  rewrite Hfst. unfold insertion_order.
  destruct (insertion_order_from
              (map (fun s : string * string * F => fst (fst s)) ss) [] (NoDup_nil_2))
    as [Hnd Hmem].
  split; [exact Hnd|]. intros team. rewrite Hmem, elem_of_nil.
  change (map (fun s : string * string * F => fst (fst s)) ss)
    with ((fun s : string * string * F => fst (fst s)) <$> ss).
  rewrite list_elem_of_fmap. split.
  - intros [[] | ([[t p0] v] & -> & Hin)]. exists p0, v. exact Hin.
  - intros (p0 & v & Hin). right. exists (team, p0, v). split; [reflexivity | exact Hin].
Qed.

(** Aggregation followed by rating: in a completed run a team is rated
    for a position exactly when at least three samples were collected
    against it there. *)
Theorem dvp_pipeline_rated_iff
    (player_to_position : gmap string string)
    (player_data : list (string * list (string * option (list (@player_record F)))))
    (R : gmap (string * string) (@team_rating F)) (team position : string) :
  create_dvp_team_ratings
    (calculate_team_defense_ratings player_to_position player_data) = Some R ->
  (is_Some (R !! (team, position)) <->
   position ∈ positions /\
   (3 <= length (points_list (samples player_to_position player_data)
                             team position))%nat).
Proof.
  intros Hrun.
  rewrite (team_rated_exactly_when _ R team position Hrun).
  unfold calculate_team_defense_ratings.
  set (ss := samples player_to_position player_data).
  split; intros [Hpos Hs]; (split; [exact Hpos|]).
  - destruct Hs as (st & Hin & Hsize).
    apply list_elem_of_In, in_map_iff in Hin. destruct Hin as (t & [= -> <-] & _).
    rewrite stats_of_sample_size in Hsize. lia.
  - exists (fun position => stats_of (points_list ss team position)). split.
    + apply list_elem_of_In, in_map_iff. exists team. split; [reflexivity|].
      apply list_elem_of_In. unfold insertion_order.
      apply (insertion_order_from _ [] NoDup_nil_2). right.
      destruct (points_list ss team position) as [|x pts] eqn:Ep;
        [cbn [length] in Hs; lia|].
      assert (Hx : x ∈ points_list ss team position)
        by (rewrite Ep; apply list_elem_of_here).
      apply points_list_elem in Hx.
      change (map (fun s : string * string * F => fst (fst s)) ss)
        with ((fun s : string * string * F => fst (fst s)) <$> ss).
      apply list_elem_of_fmap. exists (team, position, x). split; [reflexivity | exact Hx].
    + rewrite stats_of_sample_size. lia.
Qed.

End DefenceTable.

(** *** Consistency and games played *)

Section TableAndPlayers.
Local Open Scope Q_scope.

Variable np_mean np_std : list Q -> Q.

(** A property of every entry of the player table follows from the same
    property of every rated record. *)
Lemma calculate_player_dvp_ratings_Forall (P : player_rating -> Prop) :
  (forall player r, rate_player np_mean np_std player = Some r -> P r) ->
  forall player_data : list (string * list (string * option (list player_record))),
    map_Forall (fun _ e => P e)
               (calculate_player_dvp_ratings np_mean np_std player_data).
Proof.
  intros HP player_data. unfold calculate_player_dvp_ratings.
  generalize (map_Forall_empty (M := gmap (string * string)) (fun _ e => P e)).
  generalize (∅ : gmap (string * string) (@player_rating Q)).
  induction player_data as [|[team matchups] player_data IH]; intros acc Hacc;
    cbn [foldl]; [exact Hacc|].
  apply IH. clear IH. revert acc Hacc.
  induction matchups as [|[opponent [players|]] matchups IHm]; intros acc Hacc;
    cbn [foldl]; [exact Hacc | | apply IHm, Hacc].
  apply IHm. clear IHm. unfold rate_players_vs. revert acc Hacc.
  induction players as [|player players IHp]; intros acc Hacc; cbn [foldl];
    [exact Hacc|].
  apply IHp. destruct (rate_player np_mean np_std player) as [r|] eqn:Er;
    [|exact Hacc].
  apply map_Forall_insert_2; [exact (HP player r Er) | exact Hacc].
Qed.

Lemma consistency_of_range (scores : list Q) :
  (forall l, 0 <= np_std l) ->
  0 <= consistency_of np_mean np_std scores /\
  consistency_of np_mean np_std scores <= 1.
Proof.
  intros Hstd. unfold consistency_of.
  destruct (2 <=? length scores)%nat; [|split; discriminate].
  unfold py_max. cbn [ltb sub div of_Z lit PyNum_Q].
  change (inject_Z 0) with 0. change (inject_Z 1) with 1.
  change (5 # pow10 1) with (5 # 10).
  set (cv := if Qltb 0 (np_mean scores)
             then np_std scores / np_mean scores else 0).
  assert (Hcv : 0 <= cv).
  { unfold cv. destruct (Qltb 0 (np_mean scores)) eqn:Em; [|apply Qle_refl].
    apply Qltb_lt in Em. apply Qle_shift_div_l; [exact Em|].
    rewrite Qmult_0_l. apply Hstd. }
  assert (Hx : 1 - cv / (5 # 10) <= 1).
  { unfold Qdiv. change (/ (5 # 10)) with (10 # 5). lra. }
  destruct (Qltb 0 (1 - cv / (5 # 10))) eqn:E.
  - apply Qltb_lt in E. split; [apply Qlt_le_weak, E | exact Hx].
  - split; [apply Qle_refl | discriminate].
Qed.

(** When the standard deviation is never negative, every consistency in
    the player table lies between 0 and 1. *)
Theorem player_consistency_in_unit_interval
    (player_data : list (string * list (string * option (list player_record))))
    (key : string * string) (e : player_rating) :
  (forall l, 0 <= np_std l) ->
  calculate_player_dvp_ratings np_mean np_std player_data !! key = Some e ->
  0 <= p_consistency e /\ p_consistency e <= 1.
Proof.
  intros Hstd Hkey.
  apply (calculate_player_dvp_ratings_Forall
           (fun e => 0 <= p_consistency e /\ p_consistency e <= 1))
    with (player_data := player_data) (i := key); [|exact Hkey].
  intros player r. unfold rate_player.
  destruct (is_zero (AVG player) || String.eqb (PLAYER player) EmptyString);
    [discriminate|].
  intros [= <-]. cbn [p_consistency round_nd PyNum_Q].
  destruct (consistency_of_range (game_scores player) Hstd) as [H0 H1].
  split.
  - apply (Qround_nd_mono _ _ 2) in H0.
    eapply Qle_trans; [|exact H0]. discriminate.
  - apply (Qround_nd_mono _ _ 2) in H1.
    eapply Qle_trans; [exact H1|]. discriminate.
Qed.

(** Among matchups with games logged, more games never lower the
    rating, everything else being equal. *)
Theorem final_rating_of_games_monotone
    (avg_points games1 games2 consistency_score : Q) :
  0 < games1 -> games1 <= games2 -> 0 <= consistency_score ->
  final_rating_of avg_points games1 consistency_score
  <= final_rating_of avg_points games2 consistency_score.
Proof.
  intros Hg1 Hg12 Hc. unfold final_rating_of.
  assert (Hg2 : 0 < games2) by lra.
  cbn [ltb add mul div of_Z lit PyNum_Q].
  change (inject_Z 0) with 0.
  apply Qltb_lt in Hg1 as Hb1. apply Qltb_lt in Hg2 as Hb2. rewrite Hb1, Hb2.
  set (base := py_min (inject_Z 10) (py_max (inject_Z 1) (avg_points / inject_Z 10))).
  assert (Hbase : 1 <= base).
  { unfold base, py_min, py_max. cbn [ltb PyNum_Q].
    change (inject_Z 1) with 1. change (inject_Z 10) with 10.
    destruct (Qltb 1 (avg_points / 10)) eqn:E1.
    - apply Qltb_lt in E1.
      destruct (Qltb (avg_points / 10) 10); [apply Qlt_le_weak, E1 | discriminate].
    - destruct (Qltb 1 10); [apply Qle_refl | discriminate]. }
  set (s1 := py_min (12 # pow10 1) (games1 / inject_Z 5)).
  set (s2 := py_min (12 # pow10 1) (games2 / inject_Z 5)).
  assert (Hs : 0 <= s1 /\ s1 <= s2).
  { unfold s1, s2, py_min. cbn [ltb PyNum_Q].
    change (12 # pow10 1) with (12 # 10). change (inject_Z 5) with 5.
    unfold Qdiv. change (/ 5) with (1 # 5).
    destruct (Qltb (games1 * (1 # 5)) (12 # 10)) eqn:E1;
      destruct (Qltb (games2 * (1 # 5)) (12 # 10)) eqn:E2;
      try apply Qltb_lt in E1; try apply Qltb_ge in E1;
      try apply Qltb_lt in E2; try apply Qltb_ge in E2; split; lra. }
  destruct Hs as [Hs0 Hs12].
  set (c := (8 # pow10 1) + consistency_score * (4 # pow10 1)).
  assert (Hcpos : 0 <= c).
  { unfold c. change (8 # pow10 1) with (8 # 10). change (4 # pow10 1) with (4 # 10). lra. }
  assert (Hprod : base * s1 * c <= base * s2 * c).
  { apply Qmult_le_compat_r; [|exact Hcpos].
    apply Qmult_le_l; [lra | exact Hs12]. }
  revert Hprod. generalize (base * s1 * c) (base * s2 * c). intros u v Huv.
  unfold py_max, py_min. cbn [ltb of_Z PyNum_Q].
  change (inject_Z 1) with 1. change (inject_Z 10) with 10.
  destruct (Qltb u 10) eqn:Eu; destruct (Qltb v 10) eqn:Ev;
    try apply Qltb_lt in Eu; try apply Qltb_ge in Eu;
    try apply Qltb_lt in Ev; try apply Qltb_ge in Ev;
    repeat match goal with
           | |- context [Qltb ?a ?b] =>
               let E := fresh "E" in
               destruct (Qltb a b) eqn:E;
               [apply Qltb_lt in E | apply Qltb_ge in E]
           end; lra.
Qed.

End TableAndPlayers.

Section Witnesses.
Import Examples.

Lemma five_teams_NoDup : NoDup (five_teams (F := Q)).*1.
Proof. apply (bool_decide_unpack _). vm_compute. exact I. Qed.

Lemma five_teams_run : is_Some (create_dvp_team_ratings (F := Q) five_teams).
Proof.
  apply run_completes_exactly_when.
  intros position Hin. unfold positions in Hin.
  repeat (apply elem_of_cons in Hin as [-> | Hin]);
    [ | | | | apply elem_of_nil in Hin; destruct Hin ];
    vm_compute; discriminate.
Qed.

Lemma create_dvp_team_ratings_rated_iff_witness :
  is_Some (create_dvp_team_ratings (F := Q) five_teams
             ≫= fun R => R !! ("Essendon", "Forward")).
Proof.
  destruct five_teams_run as [R E]. rewrite E. cbn [mbind option_bind].
  apply (create_dvp_team_ratings_rated_iff five_teams R "Essendon" "Forward" E).
  split; [apply list_elem_of_here|].
  exists (forward_only 90). split.
  - unfold five_teams. do 3 apply list_elem_of_further. apply list_elem_of_here.
  - vm_compute. discriminate.
Defined.

Lemma create_dvp_team_ratings_extremes_witness :
  (create_dvp_team_ratings (F := Q) five_teams
     ≫= fun R => rating <$> R !! ("Adelaide", "Forward")) = Some 1%Z /\
  (create_dvp_team_ratings (F := Q) five_teams
     ≫= fun R => rating <$> R !! ("Geelong", "Forward")) = Some 10%Z.
Proof.
  destruct five_teams_run as [R E]. rewrite E. cbn [mbind option_bind].
  assert (Hpos : "Forward" ∈ positions) by apply list_elem_of_here.
  split.
  - apply (create_dvp_team_ratings_extremes five_teams R "Forward"
             five_teams_NoDup E Hpos "Adelaide" 60%Q).
    vm_compute. reflexivity.
  - apply (create_dvp_team_ratings_extremes five_teams R "Forward"
             five_teams_NoDup E Hpos "Geelong" 100%Q).
    vm_compute. reflexivity.
Defined.

Lemma create_dvp_team_ratings_monotone_witness :
  (Spec.team_rating_truncated 1 5 <= Spec.team_rating_truncated 3 5)%Z.
Proof.
  destruct five_teams_run as [R E].
  assert (Hpos : "Forward" ∈ positions) by apply list_elem_of_here.
  pose proof (create_dvp_team_ratings_lookup five_teams R "Forward"
                five_teams_NoDup E Hpos) as Hlook.
  apply (create_dvp_team_ratings_monotone five_teams R "Forward"
           "Brisbane" "Essendon"
           {| rating := Spec.team_rating_truncated 1 5;
              rating_avg_points_allowed := 70%Q; rank := 2 |}
           {| rating := Spec.team_rating_truncated 3 5;
              rating_avg_points_allowed := 90%Q; rank := 4 |}
           five_teams_NoDup E Hpos).
  - apply (Hlook 1%nat "Brisbane" 70%Q). vm_compute. reflexivity.
  - apply (Hlook 3%nat "Essendon" 90%Q). vm_compute. reflexivity.
  - reflexivity.
Defined.

Lemma dvp_pipeline_rated_iff_witness :
  is_Some (create_dvp_team_ratings (F := Q)
             (calculate_team_defense_ratings forwards forwards_matchups)
             ≫= fun R => R !! ("Brisbane", "Forward")).
Proof.
  assert (Hrun : is_Some (create_dvp_team_ratings (F := Q)
                            (calculate_team_defense_ratings forwards forwards_matchups))).
  { apply run_completes_exactly_when.
    intros position Hin. unfold positions in Hin.
    repeat (apply elem_of_cons in Hin as [-> | Hin]);
      [ | | | | apply elem_of_nil in Hin; destruct Hin ];
      vm_compute; discriminate. }
  destruct Hrun as [R E]. rewrite E. cbn [mbind option_bind].
  apply (dvp_pipeline_rated_iff forwards forwards_matchups R "Brisbane" "Forward" E).
  split; [apply list_elem_of_here|]. vm_compute. lia.
Defined.

Lemma player_consistency_in_unit_interval_witness :
  (0 <= p_consistency gawn_vs_brisbane)%Q /\ (p_consistency gawn_vs_brisbane <= 1)%Q.
Proof.
  apply (player_consistency_in_unit_interval Spec.Qmean (fun _ => 5%Q) one_matchup
           ("Max Gawn", "Brisbane") gawn_vs_brisbane).
  - intros l. discriminate.
  - vm_compute. reflexivity.
Defined.

Lemma final_rating_of_games_monotone_witness :
  (final_rating_of 105 2 (9 # 10) <= final_rating_of 105 4 (9 # 10))%Q.
Proof.
  apply (final_rating_of_games_monotone 105%Q 2%Q 4%Q (9 # 10)%Q);
    [reflexivity | discriminate | discriminate].
Defined.

End Witnesses.

End DVPMore.

(** ** StatsConsolidator, continued *)

Module ConsolidatorMore.
Import Consolidator ConsolidatorProps.

Section AnyArithmetic.
Context `{PyNum F}.
Variable normalize_name : string -> string.

(** *** What a merge pass does to one profile *)

(** A pass that updates the profile found under a record's key changes
    the profile of a key by the records of that key, in order. *)
Lemma foldl_merge_lookup {Rec : Type} (key : Rec -> string)
    (update : @profile F -> Rec -> profile)
    (step : gmap string profile -> Rec -> gmap string profile) :
  (forall ms r,
      step ms r = match ms !! key r with
                  | Some p => <[key r := update p r]> ms
                  | None => ms
                  end) ->
  forall (recs : list Rec) (ms : gmap string profile) (k : string),
    foldl step ms recs !! k
    = (fun p => foldl update p (filter (fun r => key r = k) recs)) <$> ms !! k.
Proof.
  intros Hstep recs. induction recs as [|r recs IH]; intros ms k; cbn [foldl].
  - rewrite filter_nil. destruct (ms !! k); reflexivity.
  - rewrite IH, Hstep.
    destruct (decide (key r = k)) as [Ek | Nk].
    + rewrite filter_cons_True by exact Ek. rewrite Ek.
      destruct (ms !! k) as [p|] eqn:Hp.
      * rewrite lookup_insert_eq. reflexivity.
      * rewrite Hp. reflexivity.
    + rewrite filter_cons_False by exact Nk.
      destruct (ms !! key r); [|reflexivity].
      rewrite lookup_insert_ne by exact Nk. reflexivity.
Qed.

Lemma foldl_update_metrics (recs : list metrics_record) :
  forall p : @profile F,
    data_sources (foldl update_metrics p recs)
    = data_sources p ++ replicate (length recs) "fantasy_metrics" /\
    forall field,
      field <> "ownership_percentage" -> field <> "consistency_rating" ->
      field <> "points_per_minute" ->
      fields (foldl update_metrics p recs) !! field = fields p !! field.
Proof.
  induction recs as [|r recs IH]; intros p; cbn [foldl length replicate].
  - rewrite app_nil_r. split; reflexivity.
  - destruct (IH (update_metrics p r)) as [Hds Hf]. split.
    + rewrite Hds. cbn [update_metrics data_sources]. rewrite <- app_assoc. reflexivity.
    + intros field H1 H2 H3. rewrite (Hf field H1 H2 H3).
      cbn [update_metrics fields]. rewrite !lookup_insert_ne by congruence. reflexivity.
Qed.

(** The metrics pass never adds or removes a profile. For a profile that
    is present, it appends ['fantasy_metrics'] once per record of the
    file that carries the profile's key (so a name listed twice is
    recorded twice) and leaves every field other than the three it sets
    untouched. *)
Theorem merge_fantasy_metrics_profile
    (ms : gmap string (@profile F)) (metrics_data : list metrics_record)
    (k : string) :
  match ms !! k with
  | None => merge_fantasy_metrics normalize_name ms metrics_data !! k = None
  | Some p =>
      exists p',
        merge_fantasy_metrics normalize_name ms metrics_data !! k = Some p' /\
        data_sources p'
        = data_sources p
          ++ replicate
               (length (filter (fun r => normalize_name (m_name r) = k) metrics_data))
               "fantasy_metrics" /\
        forall field,
          field <> "ownership_percentage" -> field <> "consistency_rating" ->
          field <> "points_per_minute" ->
          fields p' !! field = fields p !! field
  end.
Proof.
  unfold merge_fantasy_metrics.
  rewrite (foldl_merge_lookup (fun r => normalize_name (m_name r)) update_metrics
             (merge_metrics_record normalize_name) (fun ms r => eq_refl)).
  destruct (ms !! k) as [p|]; [|reflexivity].
  eexists. split; [reflexivity|]. apply foldl_update_metrics.
Qed.

Lemma foldl_update_value (recs : list value_record) :
  forall p : @profile F,
    data_sources (foldl update_value p recs)
    = data_sources p ++ replicate (length recs) "fantasy_value" /\
    forall field,
      field <> "actual_average" -> field <> "value_index" ->
      field <> "value_rating" ->
      fields (foldl update_value p recs) !! field = fields p !! field.
Proof.
  induction recs as [|r recs IH]; intros p; cbn [foldl length replicate].
  - rewrite app_nil_r. split; reflexivity.
  - destruct (IH (update_value p r)) as [Hds Hf]. split.
    + rewrite Hds. cbn [update_value data_sources]. rewrite <- app_assoc. reflexivity.
    + intros field H1 H2 H3. rewrite (Hf field H1 H2 H3).
      cbn [update_value fields]. rewrite !lookup_insert_ne by congruence. reflexivity.
Qed.

(** The value-index pass behaves in the same way: no profile is added
    or removed, ['fantasy_value'] is appended once per matching record,
    and only the three value fields change. *)
Theorem merge_fantasy_value_data_profile
    (ms : gmap string (@profile F)) (value_data : list value_record)
    (k : string) :
  match ms !! k with
  | None => merge_fantasy_value_data normalize_name ms value_data !! k = None
  | Some p =>
      exists p',
        merge_fantasy_value_data normalize_name ms value_data !! k = Some p' /\
        data_sources p'
        = data_sources p
          ++ replicate
               (length (filter (fun r => normalize_name (v_name r) = k) value_data))
               "fantasy_value" /\
        forall field,
          field <> "actual_average" -> field <> "value_index" ->
          field <> "value_rating" ->
          fields p' !! field = fields p !! field
  end.
Proof.
  unfold merge_fantasy_value_data.
  rewrite (foldl_merge_lookup (fun r => normalize_name (v_name r)) update_value
             (merge_value_record normalize_name) (fun ms r => eq_refl)).
  destruct (ms !! k) as [p|]; [|reflexivity].
  eexists. split; [reflexivity|]. apply foldl_update_value.
Qed.

(** *** The CSV pass *)

Lemma append_once_prefix (src : string) (l : list string) :
  l `prefix_of` append_once src l.
Proof.
  unfold append_once. case_bool_decide; [reflexivity|]. apply prefix_app_r. reflexivity.
Qed.

Lemma append_once_NoDup (src : string) (l : list string) :
  NoDup l -> NoDup (append_once src l).
Proof.
  intros Hnd. unfold append_once. case_bool_decide as Hin; [exact Hnd|].
  apply NoDup_app. split; [exact Hnd|]. split; [|apply NoDup_singleton].
  intros x Hx Hx'. apply list_elem_of_singleton in Hx'. subst x. exact (Hin Hx).
Qed.

(** The state of one profile after one loop of the CSV pass. *)
Lemma csv_rows_profile (field src : string) (rows : list csv_row) (p : @profile F) :
  let p' := foldl (update_csv field src) p rows in
  data_sources p `prefix_of` data_sources p' /\
  (NoDup (data_sources p) -> NoDup (data_sources p')) /\
  fields p' !! field
  = match last rows with
    | Some r => Some (VNum (r_value r))
    | None => fields p !! field
    end /\
  forall field', field' <> field -> fields p' !! field' = fields p !! field'.
Proof.
  cbn zeta. rewrite foldl_update_csv.
  destruct (last rows) as [r|]; [|repeat split; auto].
  cbn [update_csv data_sources fields].
  split; [apply append_once_prefix|]. split; [apply append_once_NoDup|].
  split; [apply lookup_insert_eq|].
  intros field' Hne. apply lookup_insert_ne. congruence.
Qed.

(** The CSV pass never adds or removes a profile. For a profile that is
    present, the old provenance list is a prefix of the new one, a list
    without duplicates stays without duplicates, the two fields take the
    value of the last row that carries the profile's key (or stay as they
    were when there is none), and no other field changes. *)
Theorem merge_csv_data_profile
    (ms : gmap string (@profile F)) (df_cba df_kickins : list csv_row) (k : string) :
  match ms !! k with
  | None => merge_csv_data normalize_name ms df_cba df_kickins !! k = None
  | Some p =>
      exists p',
        merge_csv_data normalize_name ms df_cba df_kickins !! k = Some p' /\
        data_sources p `prefix_of` data_sources p' /\
        (NoDup (data_sources p) -> NoDup (data_sources p')) /\
        fields p' !! "cba_percentage"
        = match last (filter (fun r => normalize_name (r_player r) = k) df_cba) with
          | Some r => Some (VNum (r_value r))
          | None => fields p !! "cba_percentage"
          end /\
        fields p' !! "kick_ins"
        = match last (filter (fun r => normalize_name (r_player r) = k) df_kickins) with
          | Some r => Some (VNum (r_value r))
          | None => fields p !! "kick_ins"
          end /\
        forall field,
          field <> "cba_percentage" -> field <> "kick_ins" ->
          fields p' !! field = fields p !! field
  end.
Proof.
  unfold merge_csv_data. rewrite !foldl_merge_csv_row_lookup.
  destruct (ms !! k) as [p|]; [|reflexivity].
  cbn [fmap option_fmap option_map].
  eexists. split; [reflexivity|].
  set (cba := filter (fun r => normalize_name (r_player r) = k) df_cba).
  set (kick := filter (fun r => normalize_name (r_player r) = k) df_kickins).
  destruct (csv_rows_profile "cba_percentage" "csv_cba" cba p)
    as (Hp1 & Hn1 & Hv1 & Hf1).
  destruct (csv_rows_profile "kick_ins" "csv_kickins" kick
              (foldl (update_csv "cba_percentage" "csv_cba") p cba))
    as (Hp2 & Hn2 & Hv2 & Hf2).
  cbn zeta in *.
  split; [etransitivity; eassumption|].
  split; [auto|].
  split; [rewrite Hf2 by discriminate; exact Hv1|].
  split; [rewrite Hv2; destruct (last kick); [reflexivity|];
          apply Hf1; discriminate|].
  intros field Hc Hk. rewrite Hf2, Hf1 by congruence. reflexivity.
Qed.

(** *** One guarded assignment *)

Lemma set_value_same (key : string) (v : value) (stats : @profile F) :
  fields stats !! key = Some v -> set_value key v stats = stats.
Proof.
  intros Hv. destruct stats as [fs ds]. unfold set_value. cbn [fields data_sources] in *.
  f_equal. apply insert_id, Hv.
Qed.

Lemma guarded_set_inv (cond : @profile F -> option bool) (key : string)
    (val : profile -> option value) (stats stats' : profile) :
  guarded_set cond key val stats = Some stats' ->
  (cond stats = Some false /\ stats' = stats) \/
  (exists v, cond stats = Some true /\ val stats = Some v /\
             stats' = set_value key v stats).
Proof.
  unfold guarded_set. destruct (cond stats) as [[|]|]; cbn [mbind option_bind];
    [|intros [= <-]; left; split; reflexivity | discriminate].
  destruct (val stats) as [v|]; cbn [mbind option_bind]; [|discriminate].
  intros [= <-]. right. exists v. repeat split.
Qed.

Lemma guarded_set_frame (cond : @profile F -> option bool) (key : string)
    (val : profile -> option value) (stats stats' : profile) :
  guarded_set cond key val stats = Some stats' ->
  data_sources stats' = data_sources stats /\
  forall key', key' <> key -> fields stats' !! key' = fields stats !! key'.
Proof.
  intros Hg. apply guarded_set_inv in Hg.
  destruct Hg as [[_ ->] | (v & _ & _ & ->)]; [split; reflexivity|].
  split; [reflexivity|]. intros key' Hne. cbn [set_value fields].
  apply lookup_insert_ne. congruence.
Qed.

Lemma guarded_set_fixed (cond : @profile F -> option bool) (key : string)
    (val : profile -> option value) (stats : profile) :
  cond stats = Some false \/
  (exists v, cond stats = Some true /\ val stats = Some v /\
             fields stats !! key = Some v) ->
  guarded_set cond key val stats = Some stats.
Proof.
  unfold guarded_set. intros [-> | (v & -> & -> & Hv)]; cbn [mbind option_bind];
    [reflexivity|].
  rewrite (set_value_same key v stats Hv). reflexivity.
Qed.

End AnyArithmetic.


(** *** The derived-field pass *)

Ltac split_stage H p E :=
  match type of H with
  | (guarded_set ?c ?k ?v ?st ≫= _) = _ =>
      destruct (guarded_set c k v st) as [p|] eqn:E; [|discriminate H];
      cbn [mbind option_bind] in H
  end.

Ltac to_older :=
  repeat match goal with
  | Fr : forall key', key' <> ?k -> fields ?p' !! key' = fields ?p !! key'
    |- context [fields ?p' !! ?key] => rewrite (Fr key) by discriminate
  end.

Ltac to_older_in H :=
  repeat match goal with
  | Fr : forall key', key' <> ?k -> fields ?p' !! key' = fields ?p !! key' |- _ =>
      match type of H with
      | context [fields p' !! ?key] => rewrite (Fr key) in H by discriminate
      end
  end.

Ltac open_reads :=
  unfold py_and, gt_zero, eq_zero, get_gt_zero, num_field.

Ltac open_reads_in H :=
  unfold py_and, gt_zero, eq_zero, get_gt_zero, num_field in H.

Ltac no_none :=
  match goal with
  | H : is_Some None |- _ => destruct H as [? H]; discriminate H
  end.

Ltac next_stage p E :=
  match goal with
  | |- is_Some (guarded_set ?c ?k ?v ?st ≫= _) =>
      destruct (guarded_set c k v st) as [p|] eqn:E; cbn [mbind option_bind]
  end.

Ltac stuck :=
  exfalso;
  unfold num_field, eq_zero, get_gt_zero in *;
  repeat first
    [ discriminate
    | no_none
    | match goal with
      | H : _ \/ _ |- _ => destruct H
      | H : _ /\ _ |- _ => destruct H
      | H : Some _ = Some _ |- _ => injection H as H
      | H : ?x = ?x -> _ |- _ => specialize (H eq_refl)
      | H : ?b = true -> _, H' : ?b = true |- _ => specialize (H H')
      | H : context [fields ?p !! ?k] |- _ =>
          destruct (fields p !! k) as [[?|?]|]
      | H : context [if ?b then _ else _] |- _ => destruct b eqn:?
      end
    | progress cbn [mbind option_bind] in *
    | progress subst ].

Ltac same_reads := open_reads; to_older; reflexivity.

Section DerivedAny.
Context `{PyNum F}.

Lemma guarded_set_None (cond : @profile F -> option bool) (key : string)
    (val : profile -> option value) (stats : profile) :
  guarded_set cond key val stats = None ->
  cond stats = None \/ (cond stats = Some true /\ val stats = None).
Proof.
  unfold guarded_set. destruct (cond stats) as [[|]|]; cbn [mbind option_bind];
    [|discriminate|left; reflexivity].
  destruct (val stats); cbn [mbind option_bind]; [discriminate|].
  right. split; reflexivity.
Qed.

(** One profile: the provenance list and every field other than the
    five derived ones are left alone. *)
Lemma derive_stats_frame (stats stats' : @profile F) :
  derive_stats stats = Some stats' ->
  data_sources stats' = data_sources stats /\
  forall field,
    field <> "price_per_point" -> field <> "total_points" ->
    field <> "last_score" -> field <> "last_3_average" ->
    field <> "last_5_average" ->
    fields stats' !! field = fields stats !! field.
Proof.
  unfold derive_stats. intros Hrun.
  split_stage Hrun p1 E1. split_stage Hrun p2 E2. split_stage Hrun p3 E3.
  split_stage Hrun p4 E4. rename Hrun into E5.
  destruct (guarded_set_frame _ _ _ _ _ E1) as [D1 Fr1].
  destruct (guarded_set_frame _ _ _ _ _ E2) as [D2 Fr2].
  destruct (guarded_set_frame _ _ _ _ _ E3) as [D3 Fr3].
  destruct (guarded_set_frame _ _ _ _ _ E4) as [D4 Fr4].
  destruct (guarded_set_frame _ _ _ _ _ E5) as [D5 Fr5].
  split; [congruence|].
  intros field ? ? ? ? ?. rewrite Fr5, Fr4, Fr3, Fr2, Fr1 by assumption.
  reflexivity.
Qed.

Lemma calculate_derived_stats_lookup
    (ms ms' : gmap string (@profile F)) (k : string) :
  calculate_derived_stats ms = Some ms' ->
  match ms !! k with
  | None => ms' !! k = None
  | Some p => exists p', ms' !! k = Some p' /\ derive_stats p = Some p'
  end.
Proof.
  unfold calculate_derived_stats. case_bool_decide as Hall; [|discriminate].
  intros [= <-]. rewrite lookup_omap.
  destruct (ms !! k) as [p|] eqn:Ek; cbn [mbind option_bind]; [|reflexivity].
  destruct (Hall k p Ek) as [p' Hp']. exists p'. split; assumption.
Qed.

(** A completed run keeps the set of profiles; in each profile the
    provenance list and every field other than [price_per_point],
    [total_points], [last_score], [last_3_average] and [last_5_average]
    are as before. *)
Theorem calculate_derived_stats_profile
    (ms ms' : gmap string (@profile F)) (k : string) :
  calculate_derived_stats ms = Some ms' ->
  match ms !! k with
  | None => ms' !! k = None
  | Some p =>
      exists p',
        ms' !! k = Some p' /\
        data_sources p' = data_sources p /\
        forall field,
          field <> "price_per_point" -> field <> "total_points" ->
          field <> "last_score" -> field <> "last_3_average" ->
          field <> "last_5_average" ->
          fields p' !! field = fields p !! field
  end.
Proof.
  intros Hrun. pose proof (calculate_derived_stats_lookup ms ms' k Hrun) as Hk.
  destruct (ms !! k) as [p|]; [|exact Hk].
  destruct Hk as (p' & Hk & Hd). exists p'. split; [exact Hk|].
  apply derive_stats_frame, Hd.
Qed.

(** What a profile needs for the step to go through. *)
Lemma derive_stats_completes_iff (stats : @profile F) :
  is_Some (derive_stats stats) <->
  is_Some (num_field stats "price") /\
  (exists avg, num_field stats "average_points" = Some avg /\
               ((of_Z 0 <? avg)%py = true ->
                is_Some (num_field stats "games_played"))) /\
  is_Some (fields stats !! "last_score") /\
  (eq_zero stats "last_score" = Some true ->
   is_Some (get_gt_zero stats "actual_average")) /\
  is_Some (fields stats !! "last_3_average") /\
  is_Some (fields stats !! "last_5_average").
Proof.
  split.
  - intros [stats' Hrun]. unfold derive_stats in Hrun.
    split_stage Hrun p1 E1. split_stage Hrun p2 E2. split_stage Hrun p3 E3.
    split_stage Hrun p4 E4. rename Hrun into E5.
    destruct (guarded_set_frame _ _ _ _ _ E1) as [_ Fr1].
    destruct (guarded_set_frame _ _ _ _ _ E2) as [_ Fr2].
    destruct (guarded_set_frame _ _ _ _ _ E3) as [_ Fr3].
    destruct (guarded_set_frame _ _ _ _ _ E4) as [_ Fr4].
    assert (C1 : is_Some (py_and (gt_zero stats "price")
                                 (gt_zero stats "average_points"))).
    { apply guarded_set_inv in E1. destruct E1 as [[-> _]|(? & -> & _)]; eauto. }
    assert (C2 : is_Some (py_and (gt_zero stats "average_points")
                                 (gt_zero stats "games_played"))).
    { apply guarded_set_inv in E2. destruct E2 as [[E _]|(? & E & _)];
        open_reads; open_reads_in E; to_older_in E; rewrite E; eauto. }
    assert (C3 : is_Some (py_and (eq_zero stats "last_score")
                                 (get_gt_zero stats "actual_average"))).
    { apply guarded_set_inv in E3. destruct E3 as [[E _]|(? & E & _)];
        open_reads; open_reads_in E; to_older_in E; rewrite E; eauto. }
    assert (C4 : is_Some (eq_zero stats "last_3_average")).
    { apply guarded_set_inv in E4. destruct E4 as [[E _]|(? & E & _)];
        open_reads; open_reads_in E; to_older_in E;
        destruct (fields stats !! "last_3_average") as [[?|?]|]; eauto;
        discriminate E. }
    assert (C5 : is_Some (eq_zero stats "last_5_average")).
    { apply guarded_set_inv in E5. destruct E5 as [[E _]|(? & E & _)];
        open_reads; open_reads_in E; to_older_in E;
        destruct (fields stats !! "last_5_average") as [[?|?]|]; eauto;
        discriminate E. }
    clear E1 E2 E3 E4 E5 Fr1 Fr2 Fr3 Fr4.
    unfold py_and, gt_zero, eq_zero, get_gt_zero in *.
    unfold num_field in *.
    split.
    { clear -C1. destruct (fields stats !! "price") as [[?|?]|];
        cbn [mbind option_bind] in *; eauto; no_none. }
    split.
    { clear -C2. destruct (fields stats !! "average_points") as [[avg|?]|];
        cbn [mbind option_bind] in *; try no_none.
      exists avg. split; [reflexivity|]. intros Hpos. rewrite Hpos in C2.
      destruct (fields stats !! "games_played") as [[?|?]|];
        cbn [mbind option_bind] in *; eauto; no_none. }
    split.
    { clear -C3. destruct (fields stats !! "last_score") as [[?|?]|];
        cbn [mbind option_bind] in *; eauto; no_none. }
    split.
    { clear -C3. intros E. rewrite E in C3. exact C3. }
    split; [clear -C4|clear -C5];
      destruct (fields stats !! _) as [[?|?]|]; eauto; no_none.
  - intros (Hp & (avg & Ha & Hg) & Hl & Haa & H3 & H5).
    unfold derive_stats.
    next_stage p1 E1.
    2:{ apply guarded_set_None in E1. open_reads_in E1. clear -Hp Ha E1. stuck. }
    destruct (guarded_set_frame _ _ _ _ _ E1) as [_ Fr1]. clear E1.
    next_stage p2 E2.
    2:{ apply guarded_set_None in E2. open_reads_in E2. to_older_in E2.
        clear -Ha Hg E2. stuck. }
    destruct (guarded_set_frame _ _ _ _ _ E2) as [_ Fr2]. clear E2.
    next_stage p3 E3.
    2:{ apply guarded_set_None in E3. open_reads_in E3. to_older_in E3.
        clear -Hl Haa E3. stuck. }
    destruct (guarded_set_frame _ _ _ _ _ E3) as [_ Fr3]. clear E3.
    next_stage p4 E4.
    2:{ apply guarded_set_None in E4. open_reads_in E4. to_older_in E4.
        clear -Ha H3 E4. stuck. }
    destruct (guarded_set_frame _ _ _ _ _ E4) as [_ Fr4]. clear E4.
    destruct (guarded_set _ "last_5_average" _ p4) as [p5|] eqn:E5; [eauto|].
    apply guarded_set_None in E5. open_reads_in E5. to_older_in E5.
    clear -Ha H5 E5. stuck.
Qed.

(** The run completes exactly when every profile has a numeric [price]
    and [average_points], a numeric [games_played] when the average is
    positive, the keys [last_score], [last_3_average] and
    [last_5_average], and an [actual_average] that is absent or numeric
    when [last_score] is 0. Anything else raises ([KeyError] or
    [TypeError]) and aborts the run. *)
Theorem calculate_derived_stats_completes_iff (ms : gmap string (@profile F)) :
  is_Some (calculate_derived_stats ms) <->
  forall k stats, ms !! k = Some stats ->
    is_Some (num_field stats "price") /\
    (exists avg, num_field stats "average_points" = Some avg /\
                 ((of_Z 0 <? avg)%py = true ->
                  is_Some (num_field stats "games_played"))) /\
    is_Some (fields stats !! "last_score") /\
    (eq_zero stats "last_score" = Some true ->
     is_Some (get_gt_zero stats "actual_average")) /\
    is_Some (fields stats !! "last_3_average") /\
    is_Some (fields stats !! "last_5_average").
Proof.
  unfold calculate_derived_stats. case_bool_decide as Hall.
  - split; [|eauto]. intros _ k stats Hk.
    apply derive_stats_completes_iff, (Hall k stats Hk).
  - split; [intros [? E]; discriminate E|]. intros Hc. exfalso. apply Hall.
    intros k stats Hk. apply derive_stats_completes_iff, (Hc k stats Hk).
Qed.

Lemma derive_stats_derived_values (stats stats' : @profile F) (price avg : F) :
  derive_stats stats = Some stats' ->
  num_field stats "price" = Some price ->
  num_field stats "average_points" = Some avg ->
  (of_Z 0 <? price)%py = true -> (of_Z 0 <? avg)%py = true ->
  num_field stats' "price_per_point" = Some (price / avg)%py /\
  forall games,
    num_field stats "games_played" = Some games ->
    (of_Z 0 <? games)%py = true ->
    num_field stats' "total_points" = Some (avg * games)%py.
Proof.
  unfold derive_stats. intros Hrun Hp Ha Hpp Hap.
  split_stage Hrun p1 E1. split_stage Hrun p2 E2. split_stage Hrun p3 E3.
  split_stage Hrun p4 E4. rename Hrun into E5.
  destruct (guarded_set_frame _ _ _ _ _ E1) as [_ Fr1].
  destruct (guarded_set_frame _ _ _ _ _ E2) as [_ Fr2].
  destruct (guarded_set_frame _ _ _ _ _ E3) as [_ Fr3].
  destruct (guarded_set_frame _ _ _ _ _ E4) as [_ Fr4].
  destruct (guarded_set_frame _ _ _ _ _ E5) as [_ Fr5].
  split.
  - unfold num_field at 1.
    rewrite (Fr5 "price_per_point"), (Fr4 "price_per_point"),
      (Fr3 "price_per_point"), (Fr2 "price_per_point") by discriminate.
    apply guarded_set_inv in E1. unfold py_and, gt_zero in E1.
    rewrite Hp, Ha in E1. cbn [mbind option_bind] in E1.
    rewrite Hpp in E1. cbn [mbind option_bind] in E1. rewrite Hap in E1.
    destruct E1 as [[E _] | (v & _ & [= <-] & ->)]; [discriminate E|].
    cbn [set_value fields]. rewrite lookup_insert_eq. reflexivity.
  - intros games Hg Hgp.
    assert (Ha1 : num_field p1 "average_points" = Some avg).
    { unfold num_field. rewrite (Fr1 "average_points") by discriminate. exact Ha. }
    assert (Hg1 : num_field p1 "games_played" = Some games).
    { unfold num_field. rewrite (Fr1 "games_played") by discriminate. exact Hg. }
    unfold num_field at 1.
    rewrite (Fr5 "total_points"), (Fr4 "total_points"), (Fr3 "total_points")
      by discriminate.
    apply guarded_set_inv in E2. unfold py_and, gt_zero in E2.
    rewrite Ha1, Hg1 in E2. cbn [mbind option_bind] in E2.
    rewrite Hap in E2. cbn [mbind option_bind] in E2. rewrite Hgp in E2.
    destruct E2 as [[E _] | (v & _ & [= <-] & ->)]; [discriminate E|].
    cbn [set_value fields]. rewrite lookup_insert_eq. reflexivity.
Qed.

(** In a completed run, a profile with a positive price and a positive
    average ends with [price_per_point] equal to the quotient
    [price / average_points], not rounded, and, when the number of games
    is positive too, with [total_points] equal to
    [average_points * games_played]; the later stages of the pass do not
    touch the two fields. *)
Theorem calculate_derived_stats_derived_values
    (ms ms' : gmap string (@profile F)) (k : string) (stats : profile)
    (price avg : F) :
  calculate_derived_stats ms = Some ms' ->
  ms !! k = Some stats ->
  num_field stats "price" = Some price ->
  num_field stats "average_points" = Some avg ->
  (of_Z 0 <? price)%py = true -> (of_Z 0 <? avg)%py = true ->
  exists stats',
    ms' !! k = Some stats' /\
    num_field stats' "price_per_point" = Some (price / avg)%py /\
    forall games,
      num_field stats "games_played" = Some games ->
      (of_Z 0 <? games)%py = true ->
      num_field stats' "total_points" = Some (avg * games)%py.
Proof.
  intros Hrun Hk Hp Ha Hpp Hap.
  pose proof (calculate_derived_stats_lookup ms ms' k Hrun) as Hl.
  rewrite Hk in Hl. destruct Hl as (stats' & Hk' & Hd).
  exists stats'. split; [exact Hk'|].
  exact (derive_stats_derived_values _ _ _ _ Hd Hp Ha Hpp Hap).
Qed.

End DerivedAny.

Section DerivedExact.
Local Open Scope Q_scope.

Lemma positive_not_zero (x : Q) : Qltb 0 x = true -> Qeq_bool x 0 = false.
Proof.
  intros Hx. apply Qltb_lt in Hx. apply not_true_iff_false. intros E.
  apply Qeq_bool_iff in E. lra.
Qed.

(** A stage whose condition and value read fields that no stage writes. *)
Lemma guarded_set_again (cond : @profile Q -> option bool) (key : string)
    (val : profile -> option value) (p p' q : profile) :
  guarded_set cond key val p = Some p' ->
  cond q = cond p -> val q = val p -> fields q !! key = fields p' !! key ->
  guarded_set cond key val q = Some q.
Proof.
  intros Hg Hc Hv Hk. apply guarded_set_fixed. rewrite Hc, Hv, Hk.
  apply guarded_set_inv in Hg. destruct Hg as [[? _] | (v & ? & ? & ->)];
    [left; assumption|].
  right. exists v. repeat split; try assumption.
  cbn [set_value fields]. apply lookup_insert_eq.
Qed.

(** A stage that fills a field that is 0 with a positive number: once
    filled, the field is not 0 and the stage does nothing. *)
Lemma zero_fill_again (key : string) (g : @profile Q -> option bool)
    (val : profile -> option value) (p p' q : profile) :
  guarded_set (fun st => py_and (eq_zero st key) (g st)) key val p = Some p' ->
  (forall v, g p = Some true -> val p = Some v ->
             exists x, v = VNum x /\ Qltb 0 x = true) ->
  g q = g p -> fields q !! key = fields p' !! key ->
  guarded_set (fun st => py_and (eq_zero st key) (g st)) key val q = Some q.
Proof.
  intros Hg Hpos Hgq Hk. apply guarded_set_fixed. left.
  unfold py_and, eq_zero. rewrite Hgq, Hk.
  apply guarded_set_inv in Hg. destruct Hg as [[Hc ->] | (v & Hc & Hv & ->)];
    [exact Hc|].
  unfold py_and, eq_zero in Hc.
  destruct (fields p !! key) as [[x|s]|]; cbn [mbind option_bind] in Hc;
    try discriminate Hc.
  destruct (x =? of_Z 0)%py; [|discriminate Hc].
  destruct (Hpos v Hc Hv) as (y & -> & Hy).
  cbn [set_value fields]. rewrite lookup_insert_eq. cbn [mbind option_bind].
  change (y =? of_Z 0)%py with (Qeq_bool y 0).
  rewrite (positive_not_zero y Hy). reflexivity.
Qed.

Lemma scaled_average_positive (p : @profile Q) (m : Z) (v : value) :
  (0 < m)%Z ->
  gt_zero p "average_points" = Some true ->
  (avg ← num_field p "average_points"; Some (VNum (avg * lit m 2)%py)) = Some v ->
  exists x, v = VNum x /\ Qltb 0 x = true.
Proof.
  unfold gt_zero. intros Hm Hc Hv.
  destruct (num_field p "average_points") as [avg|]; [|discriminate Hc].
  cbn [mbind option_bind] in *. injection Hc as Hc. injection Hv as <-.
  eexists. split; [reflexivity|]. apply Qltb_lt. apply Qltb_lt in Hc.
  apply Qmult_lt_0_compat; [exact Hc|]. cbn. unfold Qlt. cbn. lia.
Qed.

Lemma derive_stats_idempotent (stats stats' : @profile Q) :
  derive_stats stats = Some stats' -> derive_stats stats' = Some stats'.
Proof.
  unfold derive_stats. intros Hrun.
  split_stage Hrun p1 E1. split_stage Hrun p2 E2. split_stage Hrun p3 E3.
  split_stage Hrun p4 E4. rename Hrun into E5.
  destruct (guarded_set_frame _ _ _ _ _ E1) as [_ Fr1].
  destruct (guarded_set_frame _ _ _ _ _ E2) as [_ Fr2].
  destruct (guarded_set_frame _ _ _ _ _ E3) as [_ Fr3].
  destruct (guarded_set_frame _ _ _ _ _ E4) as [_ Fr4].
  destruct (guarded_set_frame _ _ _ _ _ E5) as [_ Fr5].
  rewrite (guarded_set_again _ _ _ _ _ stats' E1); cbn [mbind option_bind];
    [|same_reads..].
  rewrite (guarded_set_again _ _ _ _ _ stats' E2); cbn [mbind option_bind];
    [|same_reads..].
  rewrite (zero_fill_again "last_score"
             (fun st => get_gt_zero st "actual_average") _ p2 p3 stats' E3);
    cbn [mbind option_bind]; [| |same_reads..].
  2:{ intros v Hc Hv. unfold get_gt_zero in Hc. rewrite Hv in Hc.
      destruct v as [x|s]; [|discriminate Hc]. injection Hc as Hc.
      exists x. split; [reflexivity|exact Hc]. }
  rewrite (zero_fill_again "last_3_average"
             (fun st => gt_zero st "average_points") _ p3 p4 stats' E4);
    cbn [mbind option_bind]; [| |same_reads..].
  2:{ intros v. apply scaled_average_positive. lia. }
  apply (zero_fill_again "last_5_average"
             (fun st => gt_zero st "average_points") _ p4 stats' stats' E5);
    [|same_reads..].
  intros v. apply scaled_average_positive. lia.
Qed.

(** A second run over the result of a completed run completes and
    changes nothing: each derived value is recomputed from fields that
    the pass does not write, and a field that was filled is no longer 0. *)
Theorem calculate_derived_stats_idempotent (ms ms' : gmap string (@profile Q)) :
  calculate_derived_stats ms = Some ms' ->
  calculate_derived_stats ms' = Some ms'.
Proof.
  unfold calculate_derived_stats. case_bool_decide as Hall; [|discriminate].
  intros [= <-].
  assert (Hfix : forall k p', omap derive_stats ms !! k = Some p' ->
                              derive_stats p' = Some p').
  { intros k p'. rewrite lookup_omap.
    destruct (ms !! k) as [p|]; cbn [mbind option_bind]; [|discriminate].
    apply derive_stats_idempotent. }
  rewrite bool_decide_eq_true_2.
  - f_equal. apply map_eq. intros k. rewrite lookup_omap.
    destruct (omap derive_stats ms !! k) as [p'|] eqn:E;
      cbn [mbind option_bind]; [|reflexivity].
    apply (Hfix k), E.
  - intros k p' E. rewrite (Hfix k p' E). eexists. reflexivity.
Qed.

Lemma derive_stats_fills_averages (stats stats' : @profile Q) (avg : Q) :
  derive_stats stats = Some stats' ->
  num_field stats "average_points" = Some avg -> 0 < avg ->
  eq_zero stats' "last_3_average" = Some false /\
  eq_zero stats' "last_5_average" = Some false.
Proof.
  unfold derive_stats. intros Hrun Ha Hap.
  split_stage Hrun p1 E1. split_stage Hrun p2 E2. split_stage Hrun p3 E3.
  split_stage Hrun p4 E4. rename Hrun into E5.
  destruct (guarded_set_frame _ _ _ _ _ E1) as [_ Fr1].
  destruct (guarded_set_frame _ _ _ _ _ E2) as [_ Fr2].
  destruct (guarded_set_frame _ _ _ _ _ E3) as [_ Fr3].
  destruct (guarded_set_frame _ _ _ _ _ E4) as [_ Fr4].
  destruct (guarded_set_frame _ _ _ _ _ E5) as [_ Fr5].
  assert (Hfill : forall (key : string) (m : Z) (p p' : @profile Q),
    (0 < m)%Z ->
    num_field p "average_points" = Some avg ->
    guarded_set
      (fun st => py_and (eq_zero st key) (gt_zero st "average_points")) key
      (fun st => avg ← num_field st "average_points";
                 Some (VNum (avg * lit m 2)%py)) p = Some p' ->
    eq_zero p' key = Some false).
  { intros key m p p' Hm Hpa Hg. apply guarded_set_inv in Hg.
    destruct Hg as [[Hc ->] | (v & Hc & Hv & ->)].
    - unfold py_and, gt_zero in Hc. rewrite Hpa in Hc.
      destruct (eq_zero p key) as [[|]|]; cbn [mbind option_bind] in Hc;
        [|reflexivity|discriminate Hc].
      change (of_Z 0 <? avg)%py with (Qltb 0 avg) in Hc.
      rewrite (proj2 (Qltb_lt 0 avg) Hap) in Hc. discriminate Hc.
    - destruct (scaled_average_positive p m v Hm) as (x & -> & Hx); [|exact Hv|].
      { unfold gt_zero. rewrite Hpa. cbn [mbind option_bind].
        change (of_Z 0 <? avg)%py with (Qltb 0 avg).
        rewrite (proj2 (Qltb_lt 0 avg) Hap). reflexivity. }
      unfold eq_zero. cbn [set_value fields]. rewrite lookup_insert_eq.
      change (x =? of_Z 0)%py with (Qeq_bool x 0).
      rewrite (positive_not_zero x Hx). reflexivity. }
  split.
  - unfold eq_zero. to_older.
    apply (Hfill "last_3_average" 95%Z p3 p4); [lia| |exact E4].
    unfold num_field. to_older. exact Ha.
  - apply (Hfill "last_5_average" 98%Z p4 stats'); [lia| |exact E5].
    unfold num_field. to_older. exact Ha.
Qed.

(** After a completed run no profile with a positive average is left
    with a [last_3_average] or a [last_5_average] of 0. *)
Theorem calculate_derived_stats_fills_averages
    (ms ms' : gmap string (@profile Q)) (k : string) (stats stats' : profile)
    (avg : Q) :
  calculate_derived_stats ms = Some ms' ->
  ms !! k = Some stats -> ms' !! k = Some stats' ->
  num_field stats "average_points" = Some avg -> 0 < avg ->
  eq_zero stats' "last_3_average" = Some false /\
  eq_zero stats' "last_5_average" = Some false.
Proof.
  intros Hrun Hk Hk' Ha Hap.
  pose proof (calculate_derived_stats_lookup ms ms' k Hrun) as Hl.
  rewrite Hk in Hl. destruct Hl as (p' & Hp' & Hd).
  rewrite Hk' in Hp'. injection Hp' as <-.
  exact (derive_stats_fills_averages _ _ _ Hd Ha Hap).
Qed.

End DerivedExact.

(** *** The completeness report *)

Section ReportExact.
Local Open Scope Q_scope.

Lemma populated_count_le (ms : gmap string (@profile Q)) (field : string) :
  (populated_count ms field <= size ms)%nat.
Proof.
  unfold populated_count.
  etransitivity; [apply List.filter_length_le|].
  rewrite length_fmap, length_map_to_list. reflexivity.
Qed.

Lemma percentage_bounds (n N : nat) :
  (0 < N)%nat -> (n <= N)%nat ->
  let pct := Qround_nd ((inject_Z (Z.of_nat n) / inject_Z (Z.of_nat N))
                        * inject_Z 100) 1 in
  0 <= pct /\ pct <= 100 /\ (n = 0%nat -> pct == 0) /\ (n = N -> pct == 100).
Proof.
  intros HN Hn. cbn zeta.
  assert (HNq : 0 < inject_Z (Z.of_nat N)).
  { change 0 with (inject_Z 0). rewrite <- Zlt_Qlt. lia. }
  assert (Hlo : 0 <= inject_Z (Z.of_nat n) / inject_Z (Z.of_nat N)).
  { apply Qle_shift_div_l; [exact HNq|]. rewrite Qmult_0_l.
    change 0 with (inject_Z 0). rewrite <- Zle_Qle. lia. }
  assert (Hhi : inject_Z (Z.of_nat n) / inject_Z (Z.of_nat N) <= 1).
  { apply Qle_shift_div_r; [exact HNq|]. rewrite Qmult_1_l.
    rewrite <- Zle_Qle. lia. }
  set (q := inject_Z (Z.of_nat n) / inject_Z (Z.of_nat N)) in *.
  change (inject_Z 100) with 100.
  split; [apply Qle_trans with (Qround_nd 0 1);
          [discriminate|apply Qround_nd_mono; lra]|].
  split; [apply Qle_trans with (Qround_nd 100 1);
          [apply Qround_nd_mono; lra|discriminate]|].
  split.
  - intros ->. assert (E : q * 100 == 0).
    { unfold q. change (inject_Z (Z.of_nat 0)) with 0. field. lra. }
    rewrite (Qround_nd_proper _ _ E 1%nat 1%nat eq_refl). reflexivity.
  - intros ->. assert (E : q * 100 == 100).
    { unfold q. field. lra. }
    rewrite (Qround_nd_proper _ _ E 1%nat 1%nat eq_refl). reflexivity.
Qed.

(** The report lists the eleven critical fields in order. For each, the
    number of populated profiles lies between 0 and the number of
    profiles, and the percentage lies between 0 and 100: it is 0 when no
    profile is populated (and for an empty store) and 100 when every
    profile of a store that is not empty is. *)
Theorem analyze_completeness_bounds (ms : gmap string (@profile Q)) :
  (analyze_completeness ms).*1 = critical_fields /\
  Forall (fun entry =>
            let populated := entry.2.1 in
            let percentage := entry.2.2 in
            (0 <= populated <= Z.of_nat (size ms))%Z /\
            0 <= percentage /\ percentage <= 100 /\
            (populated = 0%Z -> percentage == 0) /\
            (populated = Z.of_nat (size ms) -> (0 < size ms)%nat ->
             percentage == 100))
         (analyze_completeness ms).
Proof.
  unfold analyze_completeness. split.
  { rewrite <- list_fmap_compose. apply list_fmap_id. }
  apply List.Forall_forall. intros entry Hin. apply in_map_iff in Hin.
  destruct Hin as (field & <- & _). cbn zeta. cbn [fst snd completeness_of].
  pose proof (populated_count_le ms field) as Hle.
  split; [lia|].
  destruct (0 <? size ms)%nat eqn:EN.
  - apply Nat.ltb_lt in EN.
    destruct (percentage_bounds (populated_count ms field) (size ms) EN Hle)
      as (H0 & H100 & Hz & Hall).
    split; [exact H0|]. split; [exact H100|].
    split; [intros E; apply Hz; lia|].
    intros E _. apply Hall. lia.
  - apply Nat.ltb_ge in EN.
    split; [discriminate|]. split; [discriminate|].
    split; [reflexivity|]. intros _ HN. lia.
Qed.

End ReportExact.

(** *** The properties above on a stored profile *)

Section DerivedWitnesses.
Local Open Scope Q_scope.

Lemma calculate_derived_stats_profile_witness :
  let ms : gmap string (@profile Q) := {[ "tom green" := Examples.priced_profile ]} in
  match ms !! "tom green" with
  | None => omap derive_stats ms !! "tom green" = None
  | Some p =>
      exists p',
        omap derive_stats ms !! "tom green" = Some p' /\
        data_sources p' = data_sources p /\
        forall field,
          field <> "price_per_point" -> field <> "total_points" ->
          field <> "last_score" -> field <> "last_3_average" ->
          field <> "last_5_average" ->
          fields p' !! field = fields p !! field
  end.
Proof.
  apply (calculate_derived_stats_profile (F := Q)
           {[ "tom green" := Examples.priced_profile ]}
           (omap derive_stats {[ "tom green" := Examples.priced_profile ]})
           "tom green").
  vm_compute. reflexivity.
Defined.

Lemma calculate_derived_stats_idempotent_witness :
  let ms : gmap string (@profile Q) := {[ "tom green" := Examples.priced_profile ]} in
  calculate_derived_stats (omap derive_stats ms) = Some (omap derive_stats ms).
Proof.
  apply (calculate_derived_stats_idempotent
           {[ "tom green" := Examples.priced_profile ]}).
  vm_compute. reflexivity.
Defined.

Lemma calculate_derived_stats_fills_averages_witness :
  let stats' : @profile Q :=
    default Examples.priced_profile (derive_stats Examples.priced_profile) in
  eq_zero stats' "last_3_average" = Some false /\
  eq_zero stats' "last_5_average" = Some false.
Proof.
  apply (calculate_derived_stats_fills_averages
           {[ "tom green" := Examples.priced_profile ]}
           (omap derive_stats {[ "tom green" := Examples.priced_profile ]})
           "tom green" Examples.priced_profile
           (default Examples.priced_profile (derive_stats Examples.priced_profile))
           80);
    vm_compute; reflexivity.
Defined.

Lemma calculate_derived_stats_derived_values_witness :
  let ms : gmap string (@profile spec_float) :=
    {[ "tom green" := Examples.priced_profile ]} in
  exists stats',
    omap derive_stats ms !! "tom green" = Some stats' /\
    num_field stats' "price_per_point" = Some (of_Z 640000 / of_Z 80)%py /\
    forall games,
      num_field (Examples.priced_profile (F := spec_float)) "games_played"
      = Some games ->
      (of_Z 0 <? games)%py = true ->
      num_field stats' "total_points" = Some (of_Z 80 * games)%py.
Proof.
  apply (calculate_derived_stats_derived_values (F := spec_float)
           {[ "tom green" := Examples.priced_profile ]}
           (omap derive_stats {[ "tom green" := Examples.priced_profile ]})
           "tom green" Examples.priced_profile (of_Z 640000) (of_Z 80));
    vm_compute; reflexivity.
Defined.

End DerivedWitnesses.

End ConsolidatorMore.
